(** * Accounts CSV import / export (src/hooks/useAccountsImportExport.tsx)

    A shallow embedding of the hook's [parseCSVLine], [handleImport] and
    [handleExport], and the properties of the CSV reconciliation engine.

    JavaScript strings are sequences of UTF-16 code units: a string is a
    [list N] here and a character is its code unit.  The persistence and UI
    services the hook talks to (supabase, toast, the download anchor) are
    events of a small free monad, interpreted against an arbitrary service. *)

From Stdlib Require Import List String Ascii NArith Arith Bool Lia.
From Stdlib Require Import DecimalString.
From stdpp Require Import gmap list.
Import ListNotations.

Open Scope N_scope.
Open Scope nat_scope.
Open Scope list_scope.

(** ** Strings *)

Abbreviation jsstring := (list N).

(** An ASCII literal as code units. *)
Definition lit (s : string) : jsstring := List.map N_of_ascii (list_ascii_of_string s).

Definition c_quote : N := 34%N.
Definition c_comma : N := 44%N.
Definition c_semicolon : N := 59%N.
Definition c_newline : N := 10%N.
Definition c_underscore : N := 95%N.

(** WhiteSpace and LineTerminator of ECMAScript, the characters that
    [String.prototype.trim] strips. *)
Definition isWhiteSpace (c : N) : bool :=
  ((9 <=? c) && (c <=? 13) || (c =? 32) || (c =? 160) || (c =? 5760)
   || (8192 <=? c) && (c <=? 8202) || (c =? 8232) || (c =? 8233)
   || (c =? 8239) || (c =? 8287) || (c =? 12288) || (c =? 65279))%N.

Fixpoint trimStart (s : jsstring) : jsstring :=
  match s with
  | [] => []
  | c :: rest => if isWhiteSpace c then trimStart rest else s
  end.

Definition trimEnd (s : jsstring) : jsstring := rev (trimStart (rev s)).

Definition trim (s : jsstring) : jsstring := trimEnd (trimStart s).

(** Truthiness of a string: only the empty string is falsy. *)
Definition nonEmpty (s : jsstring) : bool :=
  match s with [] => false | _ :: _ => true end.

Definition jsstring_eqb (a b : jsstring) : bool := bool_decide (a = b).

(** [s.split(sep)] for a separator that matches exactly one character
    ([text.split('\n')], [tags.split(/[,;]/)]): the pieces between
    separators, empty pieces included. *)
Fixpoint splitLoop (sep : N -> bool) (s : jsstring) (piece : jsstring) : list jsstring :=
  match s with
  | [] => [piece]
  | c :: rest =>
      if sep c then piece :: splitLoop sep rest []
      else splitLoop sep rest (piece ++ [c])
  end.

Definition split (sep : N -> bool) (s : jsstring) : list jsstring := splitLoop sep s [].

(** [pieces.join(sep)] on strings. *)
Fixpoint join (sep : jsstring) (pieces : list jsstring) : jsstring :=
  match pieces with
  | [] => []
  | [p] => p
  | p :: rest => p ++ sep ++ join sep rest
  end.

(** Template-literal rendering of a non-negative integer. *)
Definition showNat (n : nat) : jsstring := lit (NilZero.string_of_uint (Nat.to_uint n)).

(** ** parseCSVLine (lines 17-35) *)

Fixpoint parseLoop (chars : jsstring) (result : list jsstring) (current : jsstring)
    (inQuotes : bool) : list jsstring :=
  match chars with
  | [] => result ++ [trim current]
  | char :: rest =>
      if (char =? c_quote)%N then parseLoop rest result current (negb inQuotes)
      else if (char =? c_comma)%N && negb inQuotes
           then parseLoop rest (result ++ [trim current]) [] inQuotes
           else parseLoop rest result (current ++ [char]) inQuotes
  end.

Definition parseCSVLine (line : jsstring) : list jsstring := parseLoop line [] [] false.

(** The scan of the specification, as a transition system: one step per
    character of the line. *)
Record scan_state := ScanState {
  done_fields : list jsstring;
  current_field : jsstring;
  in_quotes : bool
}.

Definition scan_init : scan_state := ScanState [] [] false.

Inductive scan_step : scan_state -> N -> scan_state -> Prop :=
| step_toggle fs cur q :
    scan_step (ScanState fs cur q) c_quote (ScanState fs cur (negb q))
| step_separator fs cur :
    scan_step (ScanState fs cur false) c_comma (ScanState (fs ++ [trim cur]) [] false)
| step_quoted_comma fs cur :
    scan_step (ScanState fs cur true) c_comma (ScanState fs (cur ++ [c_comma]) true)
| step_other fs cur q c :
    c <> c_quote -> c <> c_comma ->
    scan_step (ScanState fs cur q) c (ScanState fs (cur ++ [c]) q).

Inductive scan_run : scan_state -> jsstring -> scan_state -> Prop :=
| run_end st : scan_run st [] st
| run_char st c st' rest st'' :
    scan_step st c st' -> scan_run st' rest st'' -> scan_run st (c :: rest) st''.

(** At end of line the field being accumulated is trimmed and appended. *)
Definition scan_output (st : scan_state) : list jsstring :=
  done_fields st ++ [trim (current_field st)].

Definition scans_to (line : jsstring) (out : list jsstring) : Prop :=
  exists st, scan_run scan_init line st /\ out = scan_output st.

(** ** Values and objects *)

(** The values the hook handles: row cells are strings or [null], a missing
    property reads as [undefined], and a tag list is an array of strings (a
    [null] element of a stored array is written as the empty string, which is
    how [join] renders it). *)
Inductive jsval :=
| JUndefined
| JNull
| JStr (s : jsstring)
| JArr (items : list jsstring).

Definition truthy (v : jsval) : bool :=
  match v with
  | JUndefined | JNull => false
  | JStr s => nonEmpty s
  | JArr _ => true
  end.

(** [a || b] *)
Definition jsOr (a b : jsval) : jsval := if truthy a then a else b.

(** [values[idx]] on a string array. *)
Definition at_index (values : list jsstring) (idx : nat) : jsval :=
  match values !! idx with
  | Some s => JStr s
  | None => JUndefined
  end.

(** The own properties of a plain object. *)
Abbreviation obj := (gmap jsstring jsval).

(** [record.key] for a key that [Object.prototype] does not define (every key
    the hook reads). *)
Definition getProp (record : obj) (key : jsstring) : jsval :=
  default JUndefined (record !! key).

(** The object the row loop fills (line 59): its own properties, and whether
    it still has [Object.prototype] as prototype. *)
Record rowObject := RowObject {
  own : obj;
  inherits : bool
}.

(** [{}] *)
Definition emptyRow : rowObject := RowObject ∅ true.

(** [record[key] = v], for [v] a string or [null].  While the object inherits
    from [Object.prototype], the key [__proto__] goes to the inherited setter:
    [null] removes the prototype, a string is ignored, and no own property is
    created.  Once the prototype is gone [__proto__] is a key like any other.
    Every other key becomes an own property. *)
Definition setProp (record : rowObject) (key : jsstring) (v : jsval) : rowObject :=
  if bool_decide (key = lit "__proto__") && inherits record
  then match v with
       | JNull => RowObject (own record) false
       | _ => record
       end
  else RowObject (<[key := v]> (own record)) (inherits record).



(** An object literal. *)
Definition object (props : list (jsstring * jsval)) : obj :=
  fold_left (fun o kv => <[fst kv := snd kv]> o) props ∅.


(** The pieces of a text between its separators, as a relation: a last piece
    without separator, or a piece without separator, a separator, and the
    pieces of what follows. *)
Inductive splits (sep : N -> bool) : jsstring -> list jsstring -> Prop :=
| splits_last piece :
    forallb (fun c => negb (sep c)) piece = true ->
    splits sep piece [piece]
| splits_more piece c rest pieces :
    forallb (fun c => negb (sep c)) piece = true ->
    sep c = true ->
    splits sep rest pieces ->
    splits sep (piece ++ c :: rest) (piece :: pieces).

(** ** Services *)

Record toast := MkToast {
  title : jsstring;
  description : jsstring;
  destructive : bool
}.

(** The answer of [from('accounts').select('*')]. *)
Record queryResult := QueryResult {
  q_data : option (list obj);
  q_error : option jsstring
}.

(** The hook as a program over its collaborators: every call to supabase, to
    the clock and to the UI is a node; the continuation receives the answer.
    A select with [maybeSingle] answers the [id] of the row found, or [None]
    for [data: null]; an insert or update answers its [error], if any. *)
Inductive prog (A : Type) : Type :=
| Ret (a : A)
| SetIsImporting (b : bool) (k : prog A)
| GetUser (k : option jsstring -> prog A)
| SelectById (id : jsval) (k : option jsval -> prog A)
| SelectByCompanyName (name : jsval) (k : option jsval -> prog A)
| Update (payload : obj) (id : jsval) (k : option jsstring -> prog A)
| Insert (payload : obj) (k : option jsstring -> prog A)
| Now (k : jsstring -> prog A)
| SelectAllAccounts (k : queryResult -> prog A)
| Download (filename content : jsstring) (k : prog A)
| Toast (t : toast) (k : prog A)
| OnImportComplete (k : prog A).

Arguments Ret {A} a.
Arguments SetIsImporting {A} b k.
Arguments GetUser {A} k.
Arguments SelectById {A} id k.
Arguments SelectByCompanyName {A} name k.
Arguments Update {A} payload id k.
Arguments Insert {A} payload k.
Arguments Now {A} k.
Arguments SelectAllAccounts {A} k.
Arguments Download {A} filename content k.
Arguments Toast {A} t k.
Arguments OnImportComplete {A} k.

Fixpoint bind {A B : Type} (p : prog A) (f : A -> prog B) : prog B :=
  match p with
  | Ret a => f a
  | SetIsImporting b k => SetIsImporting b (bind k f)
  | GetUser k => GetUser (fun x => bind (k x) f)
  | SelectById id k => SelectById id (fun x => bind (k x) f)
  | SelectByCompanyName n k => SelectByCompanyName n (fun x => bind (k x) f)
  | Update p i k => Update p i (fun x => bind (k x) f)
  | Insert p k => Insert p (fun x => bind (k x) f)
  | Now k => Now (fun x => bind (k x) f)
  | SelectAllAccounts k => SelectAllAccounts (fun x => bind (k x) f)
  | Download fn c k => Download fn c (bind k f)
  | Toast t k => Toast t (bind k f)
  | OnImportComplete k => OnImportComplete (bind k f)
  end.

Notation "x <- p ;; q" := (bind p (fun x => q))
  (at level 100, p at next level, right associativity).

(** What an observer of a run sees: each call with its answer. *)
Inductive event :=
| EvSetIsImporting (b : bool)
| EvGetUser (user : option jsstring)
| EvSelectById (id : jsval) (data : option jsval)
| EvSelectByCompanyName (name : jsval) (data : option jsval)
| EvUpdate (payload : obj) (id : jsval) (error : option jsstring)
| EvInsert (payload : obj) (error : option jsstring)
| EvNow (t : jsstring)
| EvSelectAllAccounts (r : queryResult)
| EvDownload (filename content : jsstring)
| EvToast (t : toast)
| EvOnImportComplete.

(** A persistence and auth service over some state [W]. *)
Record service (W : Type) := Service {
  auth_getUser : W -> option jsstring * W;
  select_by_id : jsval -> W -> option jsval * W;
  select_by_company_name : jsval -> W -> option jsval * W;
  update_by_id : obj -> jsval -> W -> option jsstring * W;
  insert_row : obj -> W -> option jsstring * W;
  clock : W -> jsstring * W;
  select_all : W -> queryResult * W
}.

Arguments auth_getUser {W} s w.
Arguments select_by_id {W} s id w.
Arguments select_by_company_name {W} s name w.
Arguments update_by_id {W} s payload id w.
Arguments insert_row {W} s payload w.
Arguments clock {W} s w.
Arguments select_all {W} s w.

Fixpoint run {W A : Type} (s : service W) (p : prog A) (w : W) : A * W * list event :=
  match p with
  | Ret a => (a, w, [])
  | SetIsImporting b k =>
      let '(a, w', t) := run s k w in (a, w', EvSetIsImporting b :: t)
  | GetUser k =>
      let (x, w1) := auth_getUser s w in
      let '(a, w', t) := run s (k x) w1 in (a, w', EvGetUser x :: t)
  | SelectById id k =>
      let (x, w1) := select_by_id s id w in
      let '(a, w', t) := run s (k x) w1 in (a, w', EvSelectById id x :: t)
  | SelectByCompanyName n k =>
      let (x, w1) := select_by_company_name s n w in
      let '(a, w', t) := run s (k x) w1 in (a, w', EvSelectByCompanyName n x :: t)
  | Update p i k =>
      let (x, w1) := update_by_id s p i w in
      let '(a, w', t) := run s (k x) w1 in (a, w', EvUpdate p i x :: t)
  | Insert p k =>
      let (x, w1) := insert_row s p w in
      let '(a, w', t) := run s (k x) w1 in (a, w', EvInsert p x :: t)
  | Now k =>
      let (x, w1) := clock s w in
      let '(a, w', t) := run s (k x) w1 in (a, w', EvNow x :: t)
  | SelectAllAccounts k =>
      let (x, w1) := select_all s w in
      let '(a, w', t) := run s (k x) w1 in (a, w', EvSelectAllAccounts x :: t)
  | Download fn c k =>
      let '(a, w', t) := run s k w in (a, w', EvDownload fn c :: t)
  | Toast t0 k =>
      let '(a, w', t) := run s k w in (a, w', EvToast t0 :: t)
  | OnImportComplete k =>
      let '(a, w', t) := run s k w in (a, w', EvOnImportComplete :: t)
  end.

Definition result_of {W A : Type} (r : A * W * list event) : A := fst (fst r).
Definition trace_of {W A : Type} (r : A * W * list event) : list event := snd r.

Definition isWrite (e : event) : bool :=
  match e with
  | EvUpdate _ _ _ | EvInsert _ _ => true
  | _ => false
  end.

(** ** handleImport (lines 37-175) *)

Definition validStatuses : list jsstring :=
  [lit "New"; lit "Working"; lit "Warm"; lit "Hot"; lit "Nurture";
   lit "Closed-Won"; lit "Closed-Lost"].

Definition validTags : list jsstring :=
  [lit "AUTOSAR"; lit "Adaptive AUTOSAR"; lit "Embedded Systems"; lit "BSW"; lit "ECU";
   lit "Zone Controller"; lit "HCP"; lit "CI/CD"; lit "V&V Testing"; lit "Integration";
   lit "Software Architecture"; lit "LINUX"; lit "QNX"; lit "Cybersecurity"; lit "FuSa";
   lit "OTA"; lit "Diagnostics"; lit "Vehicle Network"; lit "Vehicle Architecture";
   lit "Connected Car"; lit "Platform"; 181%N :: lit "C/HW"].

(** [list.includes(s)] *)
Definition includes (l : list jsstring) (s : jsstring) : bool :=
  existsb (jsstring_eqb s) l.

Definition includesVal (l : list jsstring) (v : jsval) : bool :=
  match v with
  | JStr s => includes l s
  | _ => false
  end.

(** [line.trim()] is truthy *)
Definition nonBlank (line : jsstring) : bool := nonEmpty (trim line).

(** [text.split('\n').filter(line => line.trim())] *)
Definition csvLines (text : jsstring) : list jsstring :=
  List.filter nonBlank (split (N.eqb c_newline) text).

(** [/[^a-z0-9_]/g] replaced by an underscore, one code unit at a time *)
Definition keepHeaderChar (c : N) : bool :=
  ((97 <=? c) && (c <=? 122) || (48 <=? c) && (c <=? 57) || (c =? c_underscore))%N.

Definition replaceNonKey (s : jsstring) : jsstring :=
  List.map (fun c => if keepHeaderChar c then c else c_underscore) s.

(** [headers.forEach((header, idx) => record[header] = values[idx] || null)] *)
Fixpoint assignLoop (headers : list jsstring) (idx : nat) (values : list jsstring)
    (record : rowObject) : rowObject :=
  match headers with
  | [] => record
  | header :: rest =>
      assignLoop rest (S idx) values (setProp record header (jsOr (at_index values idx) JNull))
  end.

(** The row object after the [forEach] of lines 61-63. *)
Definition buildRow (headers values : list jsstring) : rowObject :=
  assignLoop headers 0 values emptyRow.

(** Its own properties: what the reads of lines 66-102 see, none of their keys
    being defined by [Object.prototype]. *)
Definition buildRecord (headers values : list jsstring) : obj :=
  own (buildRow headers values).

Definition isTagSeparator (c : N) : bool := ((c =? c_comma) || (c =? c_semicolon))%N.

(** Lines 79-83: the tags kept from the row's [tags] cell. *)
Definition parseTags (cell : jsval) : list jsstring :=
  match cell with
  | JStr s =>
      if nonEmpty s
      then List.filter (includes validTags) (List.map trim (split isTagSeparator s))
      else []
  | _ => []
  end.

(** [`Row ${i + 1}: Missing company_name`] *)
Definition rowError (i : nat) : jsstring :=
  lit "Row " ++ showNat (i + 1) ++ lit ": Missing company_name".

(** Line 66: [record.company_name || record.name || record.company] *)
Definition companyNameOf (record : obj) : jsval :=
  jsOr (jsOr (getProp record (lit "company_name")) (getProp record (lit "name")))
       (getProp record (lit "company")).

(** The body of the row loop (lines 58-104): the error pushed for the row, or
    the record pushed for it. *)
Definition processRow (headers : list jsstring) (userId : jsstring) (i : nat)
    (line : jsstring) : jsstring + obj :=
  let values := parseCSVLine line in
  let record := buildRecord headers values in
  let companyName := companyNameOf record in
  if negb (truthy companyName) then inl (rowError i)
  else
    let status := jsOr (getProp record (lit "status")) (JStr (lit "New")) in
    let status := if negb (includesVal validStatuses status) then JStr (lit "New") else status in
    let tags := parseTags (getProp record (lit "tags")) in
    let existingId := jsOr (getProp record (lit "id")) JNull in
    inr (object
      [ (lit "id", existingId);
        (lit "company_name", companyName);
        (lit "email", jsOr (getProp record (lit "email")) JNull);
        (lit "region", jsOr (getProp record (lit "region")) JNull);
        (lit "country", jsOr (getProp record (lit "country")) JNull);
        (lit "website", jsOr (getProp record (lit "website")) JNull);
        (lit "company_type", jsOr (getProp record (lit "company_type")) JNull);
        (lit "tags", if 0 <? length tags then JArr tags else JNull);
        (lit "status", status);
        (lit "notes", jsOr (getProp record (lit "notes")) JNull);
        (lit "industry", jsOr (getProp record (lit "industry")) JNull);
        (lit "phone", jsOr (getProp record (lit "phone")) JNull);
        (lit "created_by", jsOr (getProp record (lit "created_by")) (JStr userId));
        (lit "account_owner", jsOr (getProp record (lit "account_owner")) (JStr userId));
        (lit "modified_by", JStr userId) ]).

(** The record pushed for a row, for the rows that have one. *)
Definition recordOf (pushed : jsstring + obj) : obj :=
  match pushed with
  | inr r => r
  | inl _ => ∅
  end.

(** The row loop (line 57), from index [i] on. *)
Fixpoint rowsLoop (headers : list jsstring) (userId : jsstring) (i : nat)
    (rows : list jsstring) (records : list obj) (errors : list jsstring)
    : list obj * list jsstring :=
  match rows with
  | [] => (records, errors)
  | line :: rest =>
      match processRow headers userId i line with
      | inl e => rowsLoop headers userId (S i) rest records (errors ++ [e])
      | inr r => rowsLoop headers userId (S i) rest (records ++ [r]) errors
      end
  end.

(** One iteration of the upsert loop (lines 115-158); [counts] is
    [(successCount, updateCount)]. *)
Definition updateExisting (recordWithoutId : obj) (target : jsval) (counts : nat * nat)
    : prog (nat * nat) :=
  Now (fun t =>
  Update (<[lit "updated_at" := JStr t]> recordWithoutId) target (fun error =>
  Ret (match error with
       | None => (fst counts, S (snd counts))
       | Some _ => counts
       end))).

Definition upsertByCompanyName (record recordWithoutId : obj) (counts : nat * nat)
    : prog (nat * nat) :=
  SelectByCompanyName (getProp record (lit "company_name")) (fun existing =>
  match existing with
  | Some existingId => updateExisting recordWithoutId existingId counts
  | None =>
      Insert recordWithoutId (fun error =>
      Ret (match error with
           | None => (S (fst counts), snd counts)
           | Some _ => counts
           end))
  end).

Definition reconcileRecord (record : obj) (counts : nat * nat) : prog (nat * nat) :=
  let id := getProp record (lit "id") in
  let recordWithoutId := delete (lit "id") record in
  if truthy id
  then SelectById id (fun existingById =>
       match existingById with
       | Some _ => updateExisting recordWithoutId id counts
       | None => upsertByCompanyName record recordWithoutId counts
       end)
  else upsertByCompanyName record recordWithoutId counts.

Fixpoint reconcile (records : list obj) (counts : nat * nat) : prog (nat * nat) :=
  match records with
  | [] => Ret counts
  | record :: rest => counts' <- reconcileRecord record counts ;; reconcile rest counts'
  end.

Definition msgNotAuthenticated : jsstring := lit "User not authenticated".
Definition msgTooFewLines : jsstring :=
  lit "CSV file must have headers and at least one data row".
Definition msgNoValidRecords : jsstring := lit "No valid records found in CSV".

Definition importFailed (message : jsstring) : toast :=
  MkToast (lit "Import Failed")
         (if nonEmpty message then message else lit "An unexpected error occurred")
         true.

Definition importSuccessful (successCount updateCount errorCount : nat) : toast :=
  MkToast (lit "Import Successful")
         (lit "Created " ++ showNat successCount ++ lit " new accounts, updated "
          ++ showNat updateCount ++ lit " existing accounts"
          ++ (if 0 <? errorCount
              then lit ". " ++ showNat errorCount ++ lit " rows had errors."
              else []))
         false.

Section HandleImport.

(** [String.prototype.toLowerCase], the Unicode lower-casing of the runtime. *)
Variable toLowerCase : jsstring -> jsstring.

(** Line 53 *)
Definition normalizeHeader (h : jsstring) : jsstring := replaceNonKey (toLowerCase h).

Definition headersOf (lines : list jsstring) : list jsstring :=
  List.map normalizeHeader (parseCSVLine (nth 0 lines [])).

(** Lines 53-105: the records and the errors of a file. *)
Definition validate (userId : jsstring) (lines : list jsstring) : list obj * list jsstring :=
  rowsLoop (headersOf lines) userId 1 (tl lines) [] [].

(** The [try] block: [inl message] is a thrown [Error]. *)
Definition importBody (text : jsstring) : prog (jsstring + unit) :=
  GetUser (fun user =>
  match user with
  | None => Ret (inl msgNotAuthenticated)
  | Some userId =>
      let lines := csvLines text in
      if length lines <? 2 then Ret (inl msgTooFewLines)
      else
        let (records, errors) := validate userId lines in
        if length records =? 0 then Ret (inl msgNoValidRecords)
        else
          counts <- reconcile records (0, 0) ;;
          Toast (importSuccessful (fst counts) (snd counts) (length errors))
          (OnImportComplete (Ret (inr tt)))
  end).

Definition handleImport (text : jsstring) : prog unit :=
  SetIsImporting true
    (r <- importBody text ;;
     match r with
     | inl message => Toast (importFailed message) (SetIsImporting false (Ret tt))
     | inr _ => SetIsImporting false (Ret tt)
     end).

End HandleImport.

(** ** handleExport (lines 177-240) *)

Definition exportHeaders : list jsstring :=
  [lit "id"; lit "company_name"; lit "email"; lit "company_type"; lit "industry";
   lit "tags"; lit "country"; lit "status"; lit "website"; lit "region"; lit "notes";
   lit "phone"; lit "account_owner"; lit "created_by"; lit "modified_by";
   lit "created_at"; lit "updated_at"].

(** [String(value)] *)
Definition toString (v : jsval) : jsstring :=
  match v with
  | JUndefined => lit "undefined"
  | JNull => lit "null"
  | JStr s => s
  | JArr items => join [c_comma] items
  end.

(** Line 211: every double quote of [strValue] replaced by two. *)
Fixpoint doubleQuotes (s : jsstring) : jsstring :=
  match s with
  | [] => []
  | c :: rest => if (c =? c_quote)%N then c_quote :: c_quote :: doubleQuotes rest
                 else c :: doubleQuotes rest
  end.

(** [strValue.includes(c)] for a one-character [c] *)
Definition includesChar (c : N) (s : jsstring) : bool := existsb (N.eqb c) s.

(** The callback of [headers.map] (lines 203-214). *)
Definition exportField (account : obj) (header : jsstring) : jsstring :=
  let value := getProp account header in
  let value :=
    match value with
    | JArr items => if jsstring_eqb header (lit "tags") then JStr (join [c_semicolon] items)
                    else value
    | _ => value
    end in
  match value with
  | JNull | JUndefined => []
  | _ =>
      let strValue := toString value in
      if includesChar c_comma strValue || includesChar c_quote strValue
         || includesChar c_newline strValue
      then [c_quote] ++ doubleQuotes strValue ++ [c_quote]
      else strValue
  end.

Definition exportRow (account : obj) : jsstring :=
  join [c_comma] (List.map (exportField account) exportHeaders).

Definition csvContent (data : list obj) : jsstring :=
  join [c_newline] (join [c_comma] exportHeaders :: List.map exportRow data).

(** [`accounts_export_${new Date().toISOString().split('T')[0]}.csv`] *)
Definition exportFileName (iso : jsstring) : jsstring :=
  lit "accounts_export_" ++ hd [] (split (N.eqb 84%N) iso) ++ lit ".csv".

Definition exportFailed (message : jsstring) : toast :=
  MkToast (lit "Export Failed")
         (if nonEmpty message then message else lit "An unexpected error occurred")
         true.

Definition handleExport : prog unit :=
  SelectAllAccounts (fun r =>
  match q_error r with
  | Some message => Toast (exportFailed message) (Ret tt)
  | None =>
      match q_data r with
      | None | Some [] =>
          Toast (MkToast (lit "No Data") (lit "No accounts to export.") false) (Ret tt)
      | Some data =>
          Now (fun iso =>
          Download (exportFileName iso) (csvContent data)
          (Toast (MkToast (lit "Export Successful")
                         (lit "Exported " ++ showNat (length data) ++ lit " accounts to CSV.")
                         false)
          (Ret tt)))
      end
  end).

(** The quoting rule of the export, in the words of the specification: a
    text that holds a comma, a double quote or a newline goes between double
    quotes with each of its double quotes doubled; any other text goes as it
    is. *)
Definition needsQuoting (s : jsstring) : Prop :=
  In c_comma s \/ In c_quote s \/ In c_newline s.

Definition quoted (s : jsstring) : jsstring :=
  [c_quote]
  ++ flat_map (fun c => if N.eq_dec c c_quote then [c_quote; c_quote] else [c]) s
  ++ [c_quote].

Definition csv_field (s out : jsstring) : Prop :=
  (needsQuoting s -> out = quoted s) /\ (~ needsQuoting s -> out = s).

Definition headerRow : jsstring :=
  lit "id,company_name,email,company_type,industry,tags,country,status,website,region,notes,phone,account_owner,created_by,modified_by,created_at,updated_at".

(** ** An in-memory service

    A small store that implements the service contract; the examples run the
    hook against it. *)

#[global] Instance jsval_eq_dec : EqDecision jsval.
Proof. solve_decision. Defined.

Record store := Store {
  st_user : option jsstring;
  st_rows : list obj;
  st_writable : bool;
  st_now : jsstring
}.

Definition rowsWhere (key : jsstring) (v : jsval) (rows : list obj) : list obj :=
  List.filter (fun r => bool_decide (getProp r key = v)) rows.

(** [maybeSingle]: the row when exactly one matches, [data: null] otherwise. *)
Definition maybeSingle (rows : list obj) : option jsval :=
  match rows with
  | [r] => Some (getProp r (lit "id"))
  | _ => None
  end.

Definition store_update (payload : obj) (id : jsval) (w : store) : option jsstring * store :=
  if st_writable w
  then (None,
        Store (st_user w)
              (List.map (fun r => if bool_decide (getProp r (lit "id") = id)
                                  then payload ∪ r else r) (st_rows w))
              (st_writable w) (st_now w))
  else (Some (lit "permission denied"), w).

Definition store_insert (payload : obj) (w : store) : option jsstring * store :=
  if st_writable w
  then (None,
        Store (st_user w)
              (st_rows w ++ [<[lit "id" := JStr (showNat (length (st_rows w)))]> payload])
              (st_writable w) (st_now w))
  else (Some (lit "permission denied"), w).

Definition store_service : service store :=
  {| auth_getUser w := (st_user w, w);
     select_by_id id w := (maybeSingle (rowsWhere (lit "id") id (st_rows w)), w);
     select_by_company_name name w :=
       (maybeSingle (rowsWhere (lit "company_name") name (st_rows w)), w);
     update_by_id := store_update;
     insert_row := store_insert;
     clock w := (st_now w, w);
     select_all w := (QueryResult (Some (st_rows w)) None, w) |}.

(** Lower-casing of ASCII text. *)
Definition asciiLowerCase (s : jsstring) : jsstring :=
  List.map (fun c => if ((65 <=? c) && (c <=? 90))%N then (c + 32)%N else c) s.

(** A stored account named Acme, and a store holding it. *)
Definition acme : obj :=
  object [ (lit "id", JStr (lit "7")); (lit "company_name", JStr (lit "Acme")) ].

Definition acme_store (writable : bool) : store :=
  Store (Some (lit "alice")) [acme] writable (lit "2024-05-01T10:00:00.000Z").

(** ** Notions used to state the properties of the hook *)

(** A text without outer whitespace: [trim] leaves it alone. *)
Definition startsClean (s : jsstring) : Prop :=
  match s with
  | [] => True
  | c :: _ => isWhiteSpace c = false
  end.

(** A field as the parser returns it: no double quote and no whitespace at
    either end. *)
Definition field_ok (f : jsstring) : Prop :=
  ~ In c_quote f /\ trim f = f /\ startsClean f /\ startsClean (rev f).

(** The text without its double quotes. *)
Definition removeQuotes (s : jsstring) : jsstring :=
  List.filter (fun c => negb (c =? c_quote)%N) s.

(** A text that a field keeps through export and import: no double quote, no
    outer whitespace, not empty. *)
Definition cleanText (s : jsstring) : Prop :=
  trim (removeQuotes s) = s /\ s <> [].

(** The text of an exported field before the quoting of lines 210-213:
    nothing for [null] and [undefined], the string itself, the elements of an
    array joined by semicolons under [tags] and by commas elsewhere (the
    latter is [String(value)]). *)
Definition fieldText (account : obj) (header : jsstring) : jsstring :=
  match getProp account header with
  | JUndefined | JNull => []
  | JStr s => s
  | JArr items =>
      if jsstring_eqb header (lit "tags") then join [c_semicolon] items
      else join [c_comma] items
  end.

(** Lines 210-213 on a text. *)
Definition quoteField (strValue : jsstring) : jsstring :=
  if includesChar c_comma strValue || includesChar c_quote strValue
     || includesChar c_newline strValue
  then [c_quote] ++ doubleQuotes strValue ++ [c_quote]
  else strValue.

Definition isComma (c : N) : bool := (c =? c_comma)%N.

(** [null] or a non-empty string. *)
Definition text_or_null (v : jsval) : Prop :=
  v = JNull \/ exists s, v = JStr s /\ s <> [].

(** The optional text columns of a validated record. *)
Definition optionalFields : list jsstring :=
  [lit "email"; lit "region"; lit "country"; lit "website"; lit "company_type";
   lit "notes"; lit "industry"; lit "phone"].

(** The keys of a validated record. *)
Definition recordKeys : list jsstring :=
  [lit "id"; lit "company_name"; lit "email"; lit "region"; lit "country"; lit "website";
   lit "company_type"; lit "tags"; lit "status"; lit "notes"; lit "industry"; lit "phone";
   lit "created_by"; lit "account_owner"; lit "modified_by"].

(** Events of a trace, by kind. *)
Definition insertedOk (e : event) : bool :=
  match e with EvInsert _ None => true | _ => false end.

Definition updatedOk (e : event) : bool :=
  match e with EvUpdate _ _ None => true | _ => false end.

Definition isToast (e : event) : bool :=
  match e with EvToast _ => true | _ => false end.

Definition isIdLookup (e : event) : bool :=
  match e with EvSelectById _ _ => true | _ => false end.

Definition isCompletion (e : event) : bool :=
  match e with EvOnImportComplete => true | _ => false end.

(** Calls to the persistence service and to the clock, as opposed to the
    events of the UI. *)
Definition isServiceCall (e : event) : bool :=
  match e with
  | EvSelectById _ _ | EvSelectByCompanyName _ _ | EvUpdate _ _ _ | EvInsert _ _ | EvNow _ => true
  | _ => false
  end.

Definition isDownload (e : event) : bool :=
  match e with EvDownload _ _ => true | _ => false end.

Definition count (p : event -> bool) (trace : list event) : nat :=
  length (List.filter p trace).

(** ** Lemmas on the parser *)

Lemma scan_step_deterministic st c st1 st2 :
  scan_step st c st1 -> scan_step st c st2 -> st1 = st2.
Proof.
  intros H1 H2. inversion H1; subst; inversion H2; subst; try reflexivity;
    try congruence; exfalso; unfold c_quote, c_comma in *; congruence.
Qed.

Lemma scan_step_total st c : exists st', scan_step st c st'.
Proof.
  destruct st as [fs cur q].
  destruct (N.eq_dec c c_quote) as [->|Hq].
  - eexists. apply step_toggle.
  - destruct (N.eq_dec c c_comma) as [->|Hc].
    + destruct q; eexists; [apply step_quoted_comma | apply step_separator].
    + eexists. apply step_other; assumption.
Qed.

Lemma parseLoop_scan chars : forall fs cur q st,
  scan_run (ScanState fs cur q) chars st -> parseLoop chars fs cur q = scan_output st.
Proof.
  induction chars as [|c rest IH]; intros fs cur q st Hrun.
  - inversion Hrun; subst. reflexivity.
  - inversion Hrun as [|? ? st' ? ? Hstep Hrest]; subst. simpl.
    inversion Hstep; subst; simpl.
    + apply IH. assumption.
    + apply IH. assumption.
    + apply IH. assumption.
    + destruct (N.eqb_spec c c_quote) as [E|_]; [contradiction|].
      destruct (N.eqb_spec c c_comma) as [E|_]; [contradiction|].
      simpl. apply IH. assumption.
Qed.

Lemma scan_run_exists chars : forall st, exists st', scan_run st chars st'.
Proof.
  induction chars as [|c rest IH]; intros st.
  - exists st. constructor.
  - destruct (scan_step_total st c) as [st1 H1].
    destruct (IH st1) as [st2 H2].
    exists st2. econstructor; eassumption.
Qed.

Lemma scan_run_deterministic chars : forall st st1 st2,
  scan_run st chars st1 -> scan_run st chars st2 -> st1 = st2.
Proof.
  induction chars as [|c rest IH]; intros st st1 st2 H1 H2.
  - inversion H1; inversion H2; congruence.
  - inversion H1 as [|? ? sa ? ? Ha Hra]; subst.
    inversion H2 as [|? ? sb ? ? Hb Hrb]; subst.
    assert (sa = sb) by (eapply scan_step_deterministic; eassumption). subst sb.
    eapply IH; eassumption.
Qed.

(** C1: for every line, the fields [parseCSVLine] returns are exactly the
    output of the character-by-character scan (a quote toggles the in-quotes
    flag, a comma outside quotes closes the trimmed field, any other character
    is appended, the last field is trimmed and appended at end of line); the
    scan always has an outcome; and the line made of [a], a comma, [b,c]
    between double quotes, a comma and [d] gives exactly the three fields [a],
    [b,c] and [d]. *)
Theorem parseCSVLine_is_quote_toggle_scan :
  (forall line out, scans_to line out <-> parseCSVLine line = out)
  /\ (forall line, exists st, scan_run scan_init line st)
  /\ parseCSVLine (lit "a," ++ [c_quote] ++ lit "b,c" ++ [c_quote] ++ lit ",d")
     = [lit "a"; lit "b,c"; lit "d"].
Proof.
  split; [|split].
  - intros line out. split.
    + intros [st [Hrun ->]]. apply parseLoop_scan. exact Hrun.
    + intros <-. destruct (scan_run_exists line scan_init) as [st Hrun].
      exists st. split; [exact Hrun|]. apply parseLoop_scan. exact Hrun.
  - intros line. apply scan_run_exists.
  - vm_compute. reflexivity.
Qed.

(** ** Reconciliation (lines 115-158) *)

Ltac answer_calls :=
  repeat (cbn [run fst snd]; match goal with
  | |- context [select_by_id ?s ?i ?w] =>
      let E := fresh "Eid" in destruct (select_by_id s i w) as [[?|] ?] eqn:E
  | |- context [select_by_company_name ?s ?n ?w] =>
      let E := fresh "Ename" in destruct (select_by_company_name s n w) as [[?|] ?] eqn:E
  | |- context [clock ?s ?w] =>
      let E := fresh "Enow" in destruct (clock s w) as [? ?] eqn:E
  | |- context [update_by_id ?s ?p ?i ?w] =>
      let E := fresh "Eupd" in destruct (update_by_id s p i w) as [[?|] ?] eqn:E
  | |- context [insert_row ?s ?p ?w] =>
      let E := fresh "Eins" in destruct (insert_row s p w) as [[?|] ?] eqn:E
  end).

Lemma run_bind {W A B} (s : service W) (p : prog A) (f : A -> prog B) (w : W) :
  run s (bind p f) w =
  let '(a, w1, t1) := run s p w in
  let '(b, w2, t2) := run s (f a) w1 in
  (b, w2, t1 ++ t2).
Proof.
  revert w. induction p as [a|b k IH|k IH|i k IH|n k IH|p i k IH|p k IH|k IH|k IH|fn c k IH|t k IH|k IH];
    intros w; cbn [bind run].
  - destruct (run s (f a) w) as [[b w2] t2]. reflexivity.
  - rewrite IH. destruct (run s k w) as [[a w1] t1].
    destruct (run s (f a) w1) as [[b' w2] t2]. reflexivity.
  - destruct (auth_getUser s w) as [x w0]. rewrite IH.
    destruct (run s (k x) w0) as [[a w1] t1].
    destruct (run s (f a) w1) as [[b' w2] t2]. reflexivity.
  - destruct (select_by_id s i w) as [x w0]. rewrite IH.
    destruct (run s (k x) w0) as [[a w1] t1].
    destruct (run s (f a) w1) as [[b' w2] t2]. reflexivity.
  - destruct (select_by_company_name s n w) as [x w0]. rewrite IH.
    destruct (run s (k x) w0) as [[a w1] t1].
    destruct (run s (f a) w1) as [[b' w2] t2]. reflexivity.
  - destruct (update_by_id s p i w) as [x w0]. rewrite IH.
    destruct (run s (k x) w0) as [[a w1] t1].
    destruct (run s (f a) w1) as [[b' w2] t2]. reflexivity.
  - destruct (insert_row s p w) as [x w0]. rewrite IH.
    destruct (run s (k x) w0) as [[a w1] t1].
    destruct (run s (f a) w1) as [[b' w2] t2]. reflexivity.
  - destruct (clock s w) as [x w0]. rewrite IH.
    destruct (run s (k x) w0) as [[a w1] t1].
    destruct (run s (f a) w1) as [[b' w2] t2]. reflexivity.
  - destruct (select_all s w) as [x w0]. rewrite IH.
    destruct (run s (k x) w0) as [[a w1] t1].
    destruct (run s (f a) w1) as [[b' w2] t2]. reflexivity.
  - rewrite IH. destruct (run s k w) as [[a w1] t1].
    destruct (run s (f a) w1) as [[b' w2] t2]. reflexivity.
  - rewrite IH. destruct (run s k w) as [[a w1] t1].
    destruct (run s (f a) w1) as [[b' w2] t2]. reflexivity.
  - rewrite IH. destruct (run s k w) as [[a w1] t1].
    destruct (run s (f a) w1) as [[b' w2] t2]. reflexivity.
Qed.

(** C2: a record whose identifier matches no stored entity is not an error.
    The run looks the identifier up, then looks the company name up, and then
    either updates the entity found under that name or inserts the record; the
    row sent in both cases is the record without its [id] property. *)
Theorem stale_identifier_falls_back_to_company_name
    {W} (s : service W) (w : W) (record : obj) (counts : nat * nat) :
  let id := getProp record (lit "id") in
  let name := getProp record (lit "company_name") in
  let payload := delete (lit "id") record in
  truthy id = true ->
  fst (select_by_id s id w) = None ->
  let found := select_by_company_name s name (snd (select_by_id s id w)) in
  payload !! lit "id" = None
  /\ (forall key, key <> lit "id" -> payload !! key = record !! key)
  /\ trace_of (run s (reconcileRecord record counts) w) =
       EvSelectById id None :: EvSelectByCompanyName name (fst found) ::
       match fst found with
       | Some existingId =>
           let now := clock s (snd found) in
           let row := <[lit "updated_at" := JStr (fst now)]> payload in
           [EvNow (fst now);
            EvUpdate row existingId (fst (update_by_id s row existingId (snd now)))]
       | None => [EvInsert payload (fst (insert_row s payload (snd found)))]
       end.
Proof.
  intros id name payload Hid Hnone found.
  split; [apply lookup_delete_eq|].
  split; [intros key Hkey; apply lookup_delete_ne; congruence|].
  subst found. unfold reconcileRecord. fold id payload name. rewrite Hid.
  cbn [run]. destruct (select_by_id s id w) as [x w1] eqn:Eid.
  simpl in Hnone. subst x. cbn [snd].
  unfold upsertByCompanyName, updateExisting. fold name. cbn [run].
  destruct (select_by_company_name s name w1) as [[existingId|] w2] eqn:Ename; cbn [run fst snd].
  - destruct (clock s w2) as [t w3]. cbn [fst snd].
    destruct (update_by_id s _ existingId w3) as [e w4]. reflexivity.
  - destruct (insert_row s payload w2) as [e w3]. reflexivity.
Qed.

Lemma stale_identifier_falls_back_to_company_name_witness :
  let record := object [ (lit "id", JStr (lit "999")); (lit "company_name", JStr (lit "Acme")) ] in
  trace_of (run store_service (reconcileRecord record (0, 0)) (acme_store true)) =
    [ EvSelectById (JStr (lit "999")) None;
      EvSelectByCompanyName (JStr (lit "Acme")) (Some (JStr (lit "7")));
      EvNow (lit "2024-05-01T10:00:00.000Z");
      EvUpdate (object [ (lit "company_name", JStr (lit "Acme"));
                         (lit "updated_at", JStr (lit "2024-05-01T10:00:00.000Z")) ])
               (JStr (lit "7")) None ].
Proof.
  intros record.
  pose proof (stale_identifier_falls_back_to_company_name
                store_service (acme_store true) record (0, 0)) as H.
  cbv zeta in H. destruct H as (_ & _ & H); [reflexivity | reflexivity |].
  rewrite H. vm_compute. reflexivity.
Defined.

(** C3, as the code has it: when a record is routed to the update path, the
    update tally grows by one exactly when the update call reports no error;
    on a reported error both tallies keep their values. *)
Theorem update_counted_only_without_error
    {W} (s : service W) (w : W) (record : obj) (counts : nat * nat)
    (payload : obj) (target : jsval) (error : option jsstring) :
  In (EvUpdate payload target error) (trace_of (run s (reconcileRecord record counts) w)) ->
  result_of (run s (reconcileRecord record counts) w) =
    (fst counts, snd counts + (match error with None => 1 | Some _ => 0 end)).
Proof.
  destruct counts as [sc uc].
  unfold reconcileRecord, upsertByCompanyName, updateExisting, result_of, trace_of.
  destruct (truthy (getProp record (lit "id"))); cbn [run];
    answer_calls; cbn [run fst snd In];
    intros H; repeat (destruct H as [H|H]; try discriminate H; try contradiction);
    injection H as _ _ <-; f_equal; lia.
Qed.

Lemma update_counted_only_without_error_witness :
  let record := object [ (lit "id", JNull); (lit "company_name", JStr (lit "Acme")) ] in
  result_of (run store_service (reconcileRecord record (0, 0)) (acme_store true)) = (0, 1).
Proof.
  intros record.
  apply (update_counted_only_without_error store_service (acme_store true) record (0, 0)
           (object [ (lit "company_name", JStr (lit "Acme"));
                     (lit "updated_at", JStr (lit "2024-05-01T10:00:00.000Z")) ])
           (JStr (lit "7")) None).
  vm_compute. right. right. left. reflexivity.
Defined.

(** C3 as stated fails: the record below is routed to the update path (the
    company name is found), the update call reports an error, and the update
    tally stays at zero. *)
Lemma failed_update_is_not_counted :
  let record := object [ (lit "id", JNull); (lit "company_name", JStr (lit "Acme")) ] in
  let r := run store_service (reconcileRecord record (0, 0)) (acme_store false) in
  trace_of r =
    [ EvSelectByCompanyName (JStr (lit "Acme")) (Some (JStr (lit "7")));
      EvNow (lit "2024-05-01T10:00:00.000Z");
      EvUpdate (object [ (lit "company_name", JStr (lit "Acme"));
                         (lit "updated_at", JStr (lit "2024-05-01T10:00:00.000Z")) ])
               (JStr (lit "7")) (Some (lit "permission denied")) ]
  /\ result_of r = (0, 0)
  /\ snd (result_of r) <> 1.
Proof.
  vm_compute. repeat split. discriminate.
Qed.

(** ** Validation of the rows (lines 46-109) *)

Lemma rowsLoop_acc headers userId rows : forall i records errors,
  rowsLoop headers userId i rows records errors =
    (records ++ fst (rowsLoop headers userId i rows [] []),
     errors ++ snd (rowsLoop headers userId i rows [] [])).
Proof.
  induction rows as [|line rest IH]; intros i records errors; cbn [rowsLoop].
  - cbn [fst snd]. rewrite !app_nil_r. reflexivity.
  - destruct (processRow headers userId i line) as [e|r].
    + rewrite (IH (S i) records (errors ++ [e])), (IH (S i) [] ([] ++ [e])).
      cbn [fst snd app]. rewrite <- app_assoc. reflexivity.
    + rewrite (IH (S i) (records ++ [r]) errors), (IH (S i) ([] ++ [r]) []).
      cbn [fst snd app]. rewrite <- app_assoc. reflexivity.
Qed.

Lemma rowsLoop_app headers userId before : forall i after,
  rowsLoop headers userId i (before ++ after) [] [] =
    (fst (rowsLoop headers userId i before [] [])
       ++ fst (rowsLoop headers userId (i + length before) after [] []),
     snd (rowsLoop headers userId i before [] [])
       ++ snd (rowsLoop headers userId (i + length before) after [] [])).
Proof.
  induction before as [|line rest IH]; intros i after.
  - cbn [app length rowsLoop fst snd]. rewrite Nat.add_0_r.
    destruct (rowsLoop headers userId i after [] []). reflexivity.
  - cbn [app length rowsLoop].
    replace (i + S (length rest)) with (S i + length rest) by lia.
    destruct (processRow headers userId i line) as [e|r];
      rewrite rowsLoop_acc, (rowsLoop_acc headers userId rest (S i)), IH;
      cbn [fst snd]; rewrite <- !app_assoc; reflexivity.
Qed.

(** The index of a row only shows in its error message. *)
Lemma processRow_index headers userId i j line :
  match processRow headers userId i line, processRow headers userId j line with
  | inl _, inl _ => True
  | inr a, inr b => a = b
  | _, _ => False
  end.
Proof.
  unfold processRow.
  destruct (negb (truthy (companyNameOf (buildRecord headers (parseCSVLine line)))));
    [exact I | reflexivity].
Qed.

Lemma rowsLoop_index headers userId rows : forall i j,
  fst (rowsLoop headers userId i rows [] []) = fst (rowsLoop headers userId j rows [] [])
  /\ length (snd (rowsLoop headers userId i rows [] []))
     = length (snd (rowsLoop headers userId j rows [] [])).
Proof.
  induction rows as [|line rest IH]; intros i j; cbn [rowsLoop].
  - split; reflexivity.
  - pose proof (processRow_index headers userId i j line) as H.
    destruct (processRow headers userId i line) as [e|r],
             (processRow headers userId j line) as [e'|r']; try contradiction.
    + rewrite (rowsLoop_acc headers userId rest (S i)), (rowsLoop_acc headers userId rest (S j)).
      cbn [fst snd]. destruct (IH (S i) (S j)) as [-> Hlen].
      split; [reflexivity|]. rewrite !length_app, Hlen. reflexivity.
    + subst r'.
      rewrite (rowsLoop_acc headers userId rest (S i)), (rowsLoop_acc headers userId rest (S j)).
      cbn [fst snd]. destruct (IH (S i) (S j)) as [-> Hlen].
      split; [reflexivity|]. rewrite !length_app, Hlen. reflexivity.
Qed.

Lemma processRow_missing_key headers userId i row :
  let record := buildRecord headers (parseCSVLine row) in
  truthy (getProp record (lit "company_name")) = false ->
  truthy (getProp record (lit "name")) = false ->
  truthy (getProp record (lit "company")) = false ->
  processRow headers userId i row = inl (rowError i).
Proof.
  intros record H1 H2 H3. unfold processRow, companyNameOf, jsOr.
  fold record. rewrite H1, H2, H3. reflexivity.
Qed.

Section ImportProperties.

Variable toLowerCase : jsstring -> jsstring.

(** C4, as the code has it: a data row none of whose [company_name], [name]
    and [company] cells is non-empty adds no record and exactly one error;
    the rows before and after it are processed as they are without it.  The
    number in the message is the 1-based position of the row among the
    non-blank lines of the file (the header line is number 1). *)
Theorem row_without_company_name_is_skipped
    (userId header row : jsstring) (before after : list jsstring) :
  let lines := header :: before ++ row :: after in
  let headers := headersOf toLowerCase lines in
  let record := buildRecord headers (parseCSVLine row) in
  truthy (getProp record (lit "company_name")) = false ->
  truthy (getProp record (lit "name")) = false ->
  truthy (getProp record (lit "company")) = false ->
  let position := length before + 1 in
  let done := rowsLoop headers userId 1 before [] [] in
  let rest := rowsLoop headers userId (position + 1) after [] [] in
  let message := lit "Row " ++ showNat (position + 1) ++ lit ": Missing company_name" in
  lines !! position = Some row
  /\ validate toLowerCase userId lines
     = (fst done ++ fst rest, snd done ++ message :: snd rest)
  /\ fst (validate toLowerCase userId lines)
     = fst (validate toLowerCase userId (header :: before ++ after))
  /\ length (snd (validate toLowerCase userId lines))
     = S (length (snd (validate toLowerCase userId (header :: before ++ after)))).
Proof.
  intros lines headers record H1 H2 H3 position done rest message.
  assert (Hval : validate toLowerCase userId lines
                 = (fst done ++ fst rest, snd done ++ message :: snd rest)).
  { unfold validate. fold headers. cbn [tl lines].
    rewrite rowsLoop_app. cbn [rowsLoop].
    rewrite (processRow_missing_key headers userId (1 + length before) row H1 H2 H3).
    cbn [app]. rewrite (rowsLoop_acc headers userId after _ [] (_ :: _)).
    cbn [fst snd app].
    subst done rest message position. unfold rowError.
    replace (1 + length before) with (length before + 1) by lia.
    replace (S (length before + 1)) with (length before + 1 + 1) by lia.
    reflexivity. }
  split.
  { subst lines position. replace (length before + 1) with (S (length before)) by lia.
    change ((before ++ row :: after) !! length before = Some row).
    apply list_lookup_middle. reflexivity. }
  split; [exact Hval|].
  assert (Hwithout : validate toLowerCase userId (header :: before ++ after)
            = (fst done ++ fst (rowsLoop headers userId (1 + length before) after [] []),
               snd done ++ snd (rowsLoop headers userId (1 + length before) after [] []))).
  { unfold validate, headersOf. cbn [tl nth]. rewrite rowsLoop_app. reflexivity. }
  rewrite Hval, Hwithout. cbn [fst snd].
  destruct (rowsLoop_index headers userId after (position + 1) (1 + length before))
    as [Hrec Hlen].
  subst rest. rewrite Hrec. split; [reflexivity|].
  rewrite !length_app. cbn [length]. rewrite Hlen. lia.
Qed.

(** C5: an input with fewer than two non-blank lines, or one in which no
    row yields a record, ends in the failure toast and the run issues no
    insert and no update: the only calls are the busy flag, the user lookup
    and the toast.  The message is the one of the failing check, and the
    three messages differ. *)
Theorem fatal_import_issues_no_write
    {W} (s : service W) (w : W) (text : jsstring) :
  length (csvLines text) < 2
  \/ (forall userId, fst (validate toLowerCase userId (csvLines text)) = []) ->
  let user := fst (auth_getUser s w) in
  let message :=
    match user with
    | None => msgNotAuthenticated
    | Some _ => if length (csvLines text) <? 2 then msgTooFewLines else msgNoValidRecords
    end in
  let trace := trace_of (run s (handleImport toLowerCase text) w) in
  trace = [ EvSetIsImporting true; EvGetUser user;
            EvToast (MkToast (lit "Import Failed") message true);
            EvSetIsImporting false ]
  /\ forallb (fun e => negb (isWrite e)) trace = true
  /\ msgTooFewLines <> msgNoValidRecords
  /\ msgNotAuthenticated <> msgTooFewLines
  /\ msgNotAuthenticated <> msgNoValidRecords.
Proof.
  intros H user message trace.
  assert (Htrace : trace = [ EvSetIsImporting true; EvGetUser user;
                             EvToast (MkToast (lit "Import Failed") message true);
                             EvSetIsImporting false ]).
  { subst trace message user. unfold handleImport, importBody, trace_of.
    cbn [run bind]. destruct (auth_getUser s w) as [[userId|] w1]; cbn [fst snd].
    - destruct (Nat.ltb_spec (length (csvLines text)) 2) as [Hlt|Hge].
      + reflexivity.
      + destruct H as [H|H]; [lia|]. specialize (H userId).
        destruct (validate toLowerCase userId (csvLines text)) as [records errors].
        cbn [fst] in H. subst records. reflexivity.
    - reflexivity. }
  split; [exact Htrace|]. split; [rewrite Htrace; reflexivity|].
  repeat split; discriminate.
Qed.

End ImportProperties.

Lemma row_without_company_name_is_skipped_witness :
  let header := lit "company_name,email" in
  let lines := [header; lit "Acme,a@acme.io"; lit ",nobody@x.io"; lit "Bolt,b@bolt.io"] in
  length (fst (validate asciiLowerCase (lit "alice") lines)) = 2
  /\ snd (validate asciiLowerCase (lit "alice") lines) = [lit "Row 3: Missing company_name"].
Proof.
  intros header lines.
  pose proof (row_without_company_name_is_skipped asciiLowerCase (lit "alice") header
                (lit ",nobody@x.io") [lit "Acme,a@acme.io"] [lit "Bolt,b@bolt.io"]) as H.
  cbv zeta in H.
  destruct H as (_ & H & _); [reflexivity | reflexivity | reflexivity |].
  change (validate asciiLowerCase (lit "alice") lines)
    with (validate asciiLowerCase (lit "alice")
            (header :: [lit "Acme,a@acme.io"] ++ lit ",nobody@x.io" :: [lit "Bolt,b@bolt.io"])).
  rewrite H. vm_compute. split; reflexivity.
Defined.

(** C4 as stated fails on the line number: in the file below the row without
    a company name is the third line of the text (a blank line precedes it),
    and the message says row 2. *)
Lemma row_number_skips_blank_lines :
  let text := lit "company_name,email" ++ [c_newline; c_newline] ++ lit ",nobody@x.io" in
  split (N.eqb c_newline) text !! 2 = Some (lit ",nobody@x.io")
  /\ snd (validate asciiLowerCase (lit "alice") (csvLines text))
     = [lit "Row 2: Missing company_name"]
  /\ snd (validate asciiLowerCase (lit "alice") (csvLines text))
     <> [lit "Row 3: Missing company_name"].
Proof.
  vm_compute. repeat split. discriminate.
Qed.

Lemma fatal_import_issues_no_write_witness :
  trace_of (run store_service (handleImport asciiLowerCase (lit "company_name,email"))
              (acme_store true))
  = [ EvSetIsImporting true; EvGetUser (Some (lit "alice"));
      EvToast (MkToast (lit "Import Failed") msgTooFewLines true);
      EvSetIsImporting false ].
Proof.
  pose proof (fatal_import_issues_no_write asciiLowerCase store_service (acme_store true)
                (lit "company_name,email")) as H.
  cbv zeta in H. destruct H as (H & _).
  - left. vm_compute. lia.
  - rewrite H. reflexivity.
Defined.

(** ** The row object (lines 59-63) *)

Lemma setProp_lookup_ne (record : rowObject) (key other : jsstring) (v : jsval) :
  key <> other -> own (setProp record key v) !! other = own record !! other.
Proof.
  intros Hne. unfold setProp.
  destruct (bool_decide (key = lit "__proto__") && inherits record).
  - destruct v; reflexivity.
  - cbn [own]. apply lookup_insert_ne. exact Hne.
Qed.

Lemma setProp_lookup_eq (record : rowObject) (key : jsstring) (v : jsval) :
  key <> lit "__proto__" -> own (setProp record key v) !! key = Some v.
Proof.
  intros Hne. unfold setProp. rewrite bool_decide_eq_false_2 by exact Hne.
  cbn [andb own]. apply lookup_insert_eq.
Qed.



Lemma assignLoop_untouched (headers : list jsstring) (key : jsstring) :
  (forall j, headers !! j <> Some key) ->
  forall idx values (record : rowObject),
    own (assignLoop headers idx values record) !! key = own record !! key.
Proof.
  induction headers as [|header rest IH]; intros Habsent idx values record; cbn [assignLoop].
  - reflexivity.
  - rewrite IH.
    + apply setProp_lookup_ne. intros ->. apply (Habsent 0). reflexivity.
    + intros j. apply (Habsent (S j)).
Qed.


Lemma assignLoop_last_wins (headers : list jsstring) (key : jsstring) :
  key <> lit "__proto__" ->
  forall j idx values (record : rowObject),
    headers !! j = Some key ->
    (forall later, j < later -> headers !! later <> Some key) ->
    own (assignLoop headers idx values record) !! key
      = Some (jsOr (at_index values (idx + j)) JNull).
Proof.
  intros Hproto. induction headers as [|header rest IH]; intros j idx values record Hj Hlast.
  - discriminate Hj.
  - cbn [assignLoop]. destruct j as [|j].
    + injection Hj as ->. rewrite assignLoop_untouched.
      * rewrite Nat.add_0_r. apply setProp_lookup_eq. exact Hproto.
      * intros j. apply (Hlast (S j)). lia.
    + rewrite (IH j (S idx)).
      * replace (S idx + j) with (idx + S j) by lia. reflexivity.
      * exact Hj.
      * intros later Hlt. apply (Hlast (S later)). lia.
Qed.








(** Two [__proto__] columns with empty cells: the first assignment removes
    the prototype, the second one creates an own property holding [null]. *)
Example proto_column_after_proto_column :
  let row := buildRow [lit "__proto__"; lit "__proto__"; lit "name"] [[]; []; lit "Acme"] in
  own row !! lit "__proto__" = Some JNull
  /\ inherits row = false
  /\ own row !! lit "name" = Some (JStr (lit "Acme"))
  /\ own (buildRow [lit "__proto__"] [[]]) !! lit "__proto__" = None
  /\ inherits (buildRow [lit "__proto__"] [[]]) = false
  /\ buildRow [lit "__proto__"] [lit "x"] = emptyRow.
Proof. vm_compute. repeat split. Qed.


(** ** The validated record (lines 72-104) *)

Lemma splitLoop_splits (sep : N -> bool) (s : jsstring) : forall piece,
  forallb (fun c => negb (sep c)) piece = true ->
  splits sep (piece ++ s) (splitLoop sep s piece).
Proof.
  induction s as [|c rest IH]; intros piece Hpiece; cbn [splitLoop].
  - rewrite app_nil_r. apply splits_last. exact Hpiece.
  - destruct (sep c) eqn:Hc.
    + apply splits_more; [exact Hpiece | exact Hc |]. apply (IH []). reflexivity.
    + replace (piece ++ c :: rest) with ((piece ++ [c]) ++ rest)
        by (rewrite <- app_assoc; reflexivity).
      apply IH. rewrite forallb_app, Hpiece. cbn [forallb]. rewrite Hc. reflexivity.
Qed.

Lemma split_splits (sep : N -> bool) (s : jsstring) : splits sep s (split sep s).
Proof. apply (splitLoop_splits sep s []). reflexivity. Qed.

Lemma splitLoop_skip (sep : N -> bool) (p : jsstring) : forall s acc,
  forallb (fun c => negb (sep c)) p = true ->
  splitLoop sep (p ++ s) acc = splitLoop sep s (acc ++ p).
Proof.
  induction p as [|c p IH]; intros s acc Hp.
  - rewrite app_nil_r. reflexivity.
  - cbn [forallb] in Hp. apply andb_prop in Hp as [Hc Hp].
    cbn [app splitLoop]. destruct (sep c); [discriminate Hc|].
    rewrite IH by exact Hp. rewrite <- app_assoc. reflexivity.
Qed.

(** The relation determines the pieces: they are those of [split]. *)
Lemma splits_unique (sep : N -> bool) (s : jsstring) (pieces : list jsstring) :
  splits sep s pieces -> pieces = split sep s.
Proof.
  unfold split. induction 1 as [piece Hp | piece c rest pieces Hp Hc _ IH].
  - rewrite <- (app_nil_r piece) at 2. rewrite splitLoop_skip by exact Hp. reflexivity.
  - rewrite splitLoop_skip by exact Hp. cbn [splitLoop app]. rewrite Hc, IH. reflexivity.
Qed.

Lemma includes_elem_of (l : list jsstring) (s : jsstring) :
  includes l s = bool_decide (s ∈ l).
Proof.
  unfold includes. induction l as [|x l IH]; cbn [existsb].
  - symmetry. apply bool_decide_eq_false. apply not_elem_of_nil.
  - rewrite IH. unfold jsstring_eqb.
    destruct (decide (s = x)) as [->|Hne].
    + rewrite bool_decide_eq_true_2 by reflexivity.
      symmetry. apply bool_decide_eq_true. left.
    + rewrite (bool_decide_eq_false_2 (s = x)) by exact Hne. cbn [orb].
      apply bool_decide_ext. rewrite elem_of_cons. tauto.
Qed.

(** Reading a property of the object literal of lines 88-104: the values are
    set aside, the keys are compared. *)
Ltac read_literal :=
  repeat match goal with
  | |- context [(lit ?k, ?v)] =>
      tryif is_var v then fail else (let x := fresh "cell" in set (x := v); clearbody x)
  end;
  vm_compute; try reflexivity.

Lemma processRow_record headers userId i line r :
  processRow headers userId i line = inr r ->
  let record := buildRecord headers (parseCSVLine line) in
  let tags := parseTags (getProp record (lit "tags")) in
  getProp r (lit "tags") = (if 0 <? length tags then JArr tags else JNull)
  /\ getProp r (lit "created_by") = jsOr (getProp record (lit "created_by")) (JStr userId)
  /\ getProp r (lit "account_owner") = jsOr (getProp record (lit "account_owner")) (JStr userId)
  /\ getProp r (lit "modified_by") = JStr userId
  /\ getProp r (lit "company_name") = companyNameOf record
  /\ getProp r (lit "id") = jsOr (getProp record (lit "id")) JNull.
Proof.
  intros H record tags. unfold processRow in H. fold record in H. fold tags in H.
  destruct (negb (truthy (companyNameOf record))); [discriminate H|].
  injection H as <-.
  repeat split; read_literal.
Qed.

Lemma processRow_valid headers userId i line :
  truthy (companyNameOf (buildRecord headers (parseCSVLine line))) = true ->
  processRow headers userId i line = inr (recordOf (processRow headers userId i line)).
Proof. intros H. unfold processRow. rewrite H. reflexivity. Qed.

(** C6: the [tags] property of a validated record comes from the row's tags
    cell: the cell is cut at every comma and semicolon, each piece is trimmed,
    the pieces of the valid-tag list are kept in order, and [null] is stored
    when none is left (or when the cell is empty or absent).  The cell
    [AUTOSAR; BSW, Unknown] gives the tags AUTOSAR and BSW. *)
Theorem tags_are_split_trimmed_and_filtered
    (headers : list jsstring) (userId : jsstring) (i : nat) (line : jsstring) (r : obj) :
  processRow headers userId i line = inr r ->
  let cell := getProp (buildRecord headers (parseCSVLine line)) (lit "tags") in
  exists kept,
    getProp r (lit "tags") = match kept with [] => JNull | _ :: _ => JArr kept end
    /\ (truthy cell = false -> kept = [])
    /\ (forall s, cell = JStr s -> s <> [] ->
        exists pieces,
          splits isTagSeparator s pieces
          /\ kept = List.filter (fun t => bool_decide (t ∈ validTags)) (List.map trim pieces))
    /\ parseTags (JStr (lit "AUTOSAR; BSW, Unknown")) = [lit "AUTOSAR"; lit "BSW"].
Proof.
  intros H cell. destruct (processRow_record _ _ _ _ _ H) as (Htags & _).
  fold cell in Htags. exists (parseTags cell). split; [|split; [|split]].
  - rewrite Htags. destruct (parseTags cell); reflexivity.
  - intros Hfalsy. destruct cell as [| |s|items]; try reflexivity.
    cbn [truthy] in Hfalsy. cbn [parseTags]. rewrite Hfalsy. reflexivity.
  - intros s -> Hs. exists (split isTagSeparator s). split; [apply split_splits|].
    cbn [parseTags]. destruct s as [|c s]; [contradiction|]. cbn [nonEmpty].
    apply List.filter_ext. intros t. apply includes_elem_of.
  - vm_compute. reflexivity.
Qed.

Lemma tags_are_split_trimmed_and_filtered_witness :
  let line := lit "Acme," ++ [c_quote] ++ lit "AUTOSAR; BSW, Unknown" ++ [c_quote] in
  let r := recordOf (processRow [lit "company_name"; lit "tags"] (lit "alice") 1 line) in
  getProp r (lit "tags") = JArr [lit "AUTOSAR"; lit "BSW"].
Proof.
  intros line r.
  assert (E : processRow [lit "company_name"; lit "tags"] (lit "alice") 1 line = inr r)
    by (apply processRow_valid; vm_compute; reflexivity).
  destruct (tags_are_split_trimmed_and_filtered _ _ _ _ _ E) as (kept & Hr & _ & Hkept & _).
  destruct (Hkept (lit "AUTOSAR; BSW, Unknown")) as (pieces & Hsplit & ->);
    [vm_compute; reflexivity | discriminate |].
  rewrite Hr. apply splits_unique in Hsplit. subst pieces. vm_compute. reflexivity.
Defined.

(** C9, as the code has it: the creator of a validated record is the value
    the row supplies for [created_by], and the acting user when the row
    supplies none; the last modifier is the acting user whatever the row
    supplies for [modified_by]. *)
Theorem audit_fields_of_validated_record
    (headers : list jsstring) (userId : jsstring) (i : nat) (line : jsstring) (r : obj) :
  processRow headers userId i line = inr r ->
  let record := buildRecord headers (parseCSVLine line) in
  let supplied := getProp record (lit "created_by") in
  getProp r (lit "created_by") = (if truthy supplied then supplied else JStr userId)
  /\ getProp r (lit "modified_by") = JStr userId.
Proof.
  intros H record supplied.
  destruct (processRow_record _ _ _ _ _ H) as (_ & Hcreated & _ & Hmodified & _).
  split; [exact Hcreated | exact Hmodified].
Qed.

Lemma audit_fields_of_validated_record_witness :
  let r := recordOf (processRow [lit "company_name"; lit "created_by"] (lit "alice") 1
                       (lit "Acme,carol")) in
  getProp r (lit "created_by") = JStr (lit "carol")
  /\ getProp r (lit "modified_by") = JStr (lit "alice").
Proof.
  intros r.
  assert (E : processRow [lit "company_name"; lit "created_by"] (lit "alice") 1
                (lit "Acme,carol") = inr r)
    by (apply processRow_valid; vm_compute; reflexivity).
  destruct (audit_fields_of_validated_record _ _ _ _ _ E) as (Hc & Hm).
  rewrite Hc, Hm. vm_compute. split; reflexivity.
Defined.

(** C9 as stated fails for the last modifier: the row below supplies
    [modified_by = bob], and the validated record carries the acting user. *)
Lemma supplied_modifier_is_overwritten :
  let headers := [lit "company_name"; lit "modified_by"] in
  let line := lit "Acme,bob" in
  getProp (buildRecord headers (parseCSVLine line)) (lit "modified_by") = JStr (lit "bob")
  /\ match processRow headers (lit "alice") 1 line with
     | inr r => getProp r (lit "modified_by") = JStr (lit "alice")
                /\ getProp r (lit "modified_by") <> JStr (lit "bob")
     | inl _ => False
     end.
Proof.
  vm_compute. repeat split. discriminate.
Qed.

(** ** Export (lines 194-218) *)

Lemma includesChar_In (c : N) (s : jsstring) : includesChar c s = true <-> In c s.
Proof.
  unfold includesChar. rewrite existsb_exists. split.
  - intros (x & Hin & Heq). apply N.eqb_eq in Heq. subst x. exact Hin.
  - intros Hin. exists c. split; [exact Hin | apply N.eqb_refl].
Qed.

Lemma doubleQuotes_flat_map (s : jsstring) :
  doubleQuotes s
  = flat_map (fun c => if N.eq_dec c c_quote then [c_quote; c_quote] else [c]) s.
Proof.
  induction s as [|c s IH]; cbn [doubleQuotes flat_map]; [reflexivity|].
  rewrite IH. destruct (N.eqb_spec c c_quote) as [->|Hne].
  - destruct (N.eq_dec c_quote c_quote); [reflexivity | contradiction].
  - destruct (N.eq_dec c c_quote); [contradiction | reflexivity].
Qed.

Lemma needsQuoting_test (s : jsstring) :
  includesChar c_comma s || includesChar c_quote s || includesChar c_newline s = true
  <-> needsQuoting s.
Proof.
  unfold needsQuoting. rewrite !orb_true_iff, !includesChar_In. tauto.
Qed.

(** The text of a field once past the null test is quoted by the rule. *)
Lemma quote_if_needed (s : jsstring) :
  csv_field s
    (if includesChar c_comma s || includesChar c_quote s || includesChar c_newline s
     then [c_quote] ++ doubleQuotes s ++ [c_quote] else s).
Proof.
  pose proof (needsQuoting_test s) as Htest. split; intros H.
  - apply Htest in H. rewrite H. unfold quoted. rewrite doubleQuotes_flat_map. reflexivity.
  - destruct (includesChar c_comma s || includesChar c_quote s || includesChar c_newline s);
      [exfalso; apply H, Htest; reflexivity | reflexivity].
Qed.

(** C7: in an exported row, a tag list under [tags] is written as its
    elements joined by semicolons; the text of a field (that joined text, or a
    stored string) goes between double quotes with its double quotes doubled
    when it holds a comma, a double quote or a newline, and unchanged
    otherwise; a [null] or missing value gives the empty field, not the word
    null. *)
Theorem exportField_rendering (account : obj) (header : jsstring) :
  let value := getProp account header in
  (forall items, header = lit "tags" -> value = JArr items ->
     csv_field (join [c_semicolon] items) (exportField account header))
  /\ (forall s, value = JStr s -> csv_field s (exportField account header))
  /\ (value = JNull \/ value = JUndefined ->
      exportField account header = [] /\ exportField account header <> lit "null").
Proof.
  intros value. unfold exportField. fold value. split; [|split].
  - intros items -> ->. unfold jsstring_eqb.
    rewrite bool_decide_eq_true_2 by reflexivity. cbn [toString]. apply quote_if_needed.
  - intros s ->. cbn [toString]. apply quote_if_needed.
  - intros [-> | ->]; split; try reflexivity; discriminate.
Qed.

Lemma exportField_rendering_witness :
  let account :=
    object [ (lit "company_name", JStr (lit "Acme, Inc."));
             (lit "tags", JArr [lit "FuSa"; lit "OTA"]);
             (lit "notes", JNull) ] in
  exportField account (lit "tags") = lit "FuSa;OTA"
  /\ exportField account (lit "company_name") = [c_quote] ++ lit "Acme, Inc." ++ [c_quote]
  /\ exportField account (lit "notes") = []
  /\ exportField account (lit "phone") = [].
Proof.
  intros account. split; [|split; [|split]].
  - destruct (exportField_rendering account (lit "tags")) as (H & _ & _).
    destruct (H [lit "FuSa"; lit "OTA"]) as [_ Hplain]; [reflexivity | reflexivity |].
    apply Hplain. intros Hq. apply needsQuoting_test in Hq. vm_compute in Hq. discriminate Hq.
  - destruct (exportField_rendering account (lit "company_name")) as (_ & H & _).
    destruct (H (lit "Acme, Inc.")) as [Hquoted _]; [reflexivity |].
    apply Hquoted. left. apply includesChar_In. vm_compute. reflexivity.
  - destruct (exportField_rendering account (lit "notes")) as (_ & _ & H).
    apply H. left. reflexivity.
  - destruct (exportField_rendering account (lit "phone")) as (_ & _ & H).
    apply H. right. reflexivity.
Defined.

Lemma csvContent_begins (account : obj) (others : list obj) :
  csvContent (account :: others)
  = headerRow ++ c_newline :: join [c_newline] (List.map exportRow (account :: others)).
Proof. reflexivity. Qed.

(** C8, as the code has it: the file the export downloads begins with the
    header row, whatever the exported accounts are, and the header row names 17
    columns. *)
Theorem export_begins_with_header_row
    {W} (s : service W) (w : W) (filename content : jsstring) :
  In (EvDownload filename content) (trace_of (run s handleExport w)) ->
  (exists rows, content = headerRow ++ c_newline :: rows)
  /\ split (N.eqb c_comma) headerRow = exportHeaders
  /\ length exportHeaders = 17.
Proof.
  intros H. split; [|split; [vm_compute; reflexivity | reflexivity]].
  revert H. unfold handleExport, trace_of. cbn [run].
  destruct (select_all s w) as [[data error] w1]. cbn [q_error q_data].
  destruct error as [message|]; cbn [run snd In].
  - intros [H|[H|[]]]; discriminate H.
  - destruct data as [[|account others]|]; cbn [run snd In].
    + intros [H|[H|[]]]; discriminate H.
    + destruct (clock s w1) as [iso w2]. cbn [run snd In].
      intros [H|[H|[H|[H|[]]]]]; try discriminate H.
      injection H as _ <-. eexists. apply csvContent_begins.
    + intros [H|[H|[]]]; discriminate H.
Qed.

Lemma export_begins_with_header_row_witness :
  exists rows,
    csvContent [acme] = headerRow ++ c_newline :: rows.
Proof.
  apply (export_begins_with_header_row store_service (acme_store true)
           (lit "accounts_export_2024-05-01.csv") (csvContent [acme])).
  vm_compute. right. right. left. reflexivity.
Defined.

(** C8 as stated fails on the count: the header row has 17 names, not 18. *)
Lemma export_header_has_17_columns :
  length exportHeaders = 17
  /\ length exportHeaders <> 18
  /\ length (split (N.eqb c_comma) headerRow) = 17.
Proof.
  vm_compute. repeat split. discriminate.
Qed.

(** ** Further properties of the specification *)

Lemma normalizeHeader_key_chars (toLowerCase : jsstring -> jsstring) (h : jsstring) :
  forallb keepHeaderChar (normalizeHeader toLowerCase h) = true.
Proof.
  unfold normalizeHeader, replaceNonKey. induction (toLowerCase h) as [|c s IH].
  - reflexivity.
  - cbn [List.map forallb]. rewrite IH, andb_true_r.
    destruct (keepHeaderChar c) eqn:E; [exact E | reflexivity].
Qed.

(** The header [Company Name!] becomes [company_name_]. *)
Example normalizeHeader_company_name :
  normalizeHeader asciiLowerCase (lit "Company Name!") = lit "company_name_".
Proof. vm_compute. reflexivity. Qed.

(** An unknown status becomes [New]; a known one is kept. *)
Example status_is_normalized :
  getProp (recordOf (processRow [lit "name"; lit "status"] (lit "alice") 1 (lit "Acme,Bogus")))
          (lit "status") = JStr (lit "New")
  /\ getProp (recordOf (processRow [lit "name"; lit "status"] (lit "alice") 1 (lit "Acme,Hot")))
             (lit "status") = JStr (lit "Hot").
Proof. vm_compute. split; reflexivity. Qed.

(** A file with a stale identifier, a known company and a new one, imported
    into a store that holds Acme: one update, one insert, no error. *)
Example import_into_store :
  let text := lit "id,company_name" ++ [c_newline] ++ lit "999,Acme"
              ++ [c_newline] ++ lit ",Bolt" ++ [c_newline] in
  List.filter (fun e => match e with EvToast _ => true | _ => false end)
    (trace_of (run store_service (handleImport asciiLowerCase text) (acme_store true)))
  = [EvToast (importSuccessful 1 1 0)]
  /\ description (importSuccessful 1 1 0)
     = lit "Created 1 new accounts, updated 1 existing accounts".
Proof. vm_compute. split; reflexivity. Qed.

(** ** The parser: shape of the fields *)

Lemma trimStart_In (c : N) (s : jsstring) : In c (trimStart s) -> In c s.
Proof.
  induction s as [|x s IH]; cbn [trimStart]; [tauto|].
  destruct (isWhiteSpace x); [intros H; right; apply IH, H | tauto].
Qed.

Lemma trim_In (c : N) (s : jsstring) : In c (trim s) -> In c s.
Proof.
  unfold trim, trimEnd. intros H. apply in_rev in H. apply trimStart_In in H.
  apply in_rev in H. apply trimStart_In. exact H.
Qed.

Lemma trimStart_startsClean (s : jsstring) : startsClean (trimStart s).
Proof.
  induction s as [|x s IH]; cbn [trimStart]; [exact I|].
  destruct (isWhiteSpace x) eqn:E; [exact IH | exact E].
Qed.

Lemma startsClean_trimStart (s : jsstring) : startsClean s -> trimStart s = s.
Proof. destruct s as [|x s]; cbn [startsClean trimStart]; [reflexivity|]. intros ->. reflexivity. Qed.

Lemma trimStart_snoc (l : jsstring) (c : N) :
  isWhiteSpace c = false -> trimStart (l ++ [c]) = trimStart l ++ [c].
Proof.
  intros Hc. induction l as [|x l IH]; cbn [app trimStart].
  - rewrite Hc. reflexivity.
  - destruct (isWhiteSpace x); [exact IH | reflexivity].
Qed.

Lemma trimEnd_cons_clean (c : N) (s : jsstring) :
  isWhiteSpace c = false -> trimEnd (c :: s) = c :: trimEnd s.
Proof.
  intros Hc. unfold trimEnd. cbn [rev]. rewrite trimStart_snoc by exact Hc.
  rewrite rev_app_distr. reflexivity.
Qed.

Lemma trimEnd_startsClean (s : jsstring) : startsClean s -> startsClean (trimEnd s).
Proof.
  destruct s as [|c s]; [intros _; exact I|]. cbn [startsClean]. intros Hc.
  rewrite trimEnd_cons_clean by exact Hc. exact Hc.
Qed.

Lemma trimEnd_idempotent (s : jsstring) : trimEnd (trimEnd s) = trimEnd s.
Proof.
  unfold trimEnd. rewrite rev_involutive.
  rewrite (startsClean_trimStart (trimStart (rev s))) by apply trimStart_startsClean.
  reflexivity.
Qed.

Lemma trim_idempotent (s : jsstring) : trim (trim s) = trim s.
Proof.
  unfold trim.
  rewrite (startsClean_trimStart (trimEnd (trimStart s)))
    by (apply trimEnd_startsClean, trimStart_startsClean).
  apply trimEnd_idempotent.
Qed.

Lemma trim_startsClean (s : jsstring) : startsClean (trim s).
Proof. apply trimEnd_startsClean, trimStart_startsClean. Qed.

Lemma trim_endsClean (s : jsstring) : startsClean (rev (trim s)).
Proof. unfold trim, trimEnd. rewrite rev_involutive. apply trimStart_startsClean. Qed.

Lemma parseLoop_no_quote (chars : jsstring) : forall result current,
  ~ In c_quote chars ->
  parseLoop chars result current false
  = result ++ List.map trim (splitLoop isComma chars current).
Proof.
  induction chars as [|c rest IH]; intros result current Hq; cbn [parseLoop splitLoop].
  - reflexivity.
  - destruct (N.eqb_spec c c_quote) as [->|Hc]; [exfalso; apply Hq; left; reflexivity|].
    assert (Hrest : ~ In c_quote rest) by (intros H; apply Hq; right; exact H).
    unfold isComma at 1. destruct (c =? c_comma)%N; cbn [andb negb].
    + rewrite IH by exact Hrest. cbn [List.map]. rewrite <- app_assoc. reflexivity.
    + apply IH. exact Hrest.
Qed.

(** X1: on a line without double quote the parser is a split at the commas
    followed by a trim of every piece. *)
Theorem parseCSVLine_without_quotes (line : jsstring) :
  ~ In c_quote line ->
  parseCSVLine line = List.map trim (split isComma line).
Proof. intros H. unfold parseCSVLine, split. apply (parseLoop_no_quote line [] [] H). Qed.

Lemma parseCSVLine_without_quotes_witness :
  parseCSVLine (lit " Acme Corp , a@acme.io,,EU ")
  = [lit "Acme Corp"; lit "a@acme.io"; []; lit "EU"].
Proof.
  rewrite parseCSVLine_without_quotes.
  - vm_compute. reflexivity.
  - intros H. apply includesChar_In in H. vm_compute in H. discriminate H.
Defined.

Lemma trim_field_ok (s : jsstring) : ~ In c_quote s -> field_ok (trim s).
Proof.
  intros H. split; [|split; [|split]].
  - intros Hin. apply H. apply trim_In. exact Hin.
  - apply trim_idempotent.
  - apply trim_startsClean.
  - apply trim_endsClean.
Qed.

Lemma parseLoop_fields_ok (chars : jsstring) : forall result current inQuotes,
  Forall field_ok result -> ~ In c_quote current ->
  Forall field_ok (parseLoop chars result current inQuotes)
  /\ length result < length (parseLoop chars result current inQuotes).
Proof.
  induction chars as [|c rest IH]; intros result current q Hres Hcur; cbn [parseLoop].
  - split.
    + apply Forall_app. split; [exact Hres|]. constructor; [|constructor].
      apply trim_field_ok. exact Hcur.
    + rewrite length_app. cbn [length]. lia.
  - destruct (N.eqb_spec c c_quote) as [->|Hc].
    + apply IH; assumption.
    + destruct ((c =? c_comma)%N && negb q).
      * destruct (IH (result ++ [trim current]) [] q) as [Hok Hlen].
        -- apply Forall_app. split; [exact Hres|]. constructor; [|constructor].
           apply trim_field_ok. exact Hcur.
        -- intros [].
        -- split; [exact Hok|]. rewrite length_app in Hlen. cbn [length] in Hlen. lia.
      * apply IH; [exact Hres|]. intros Hin. apply in_app_or in Hin as [Hin|[Hin|[]]].
        -- apply Hcur, Hin.
        -- apply Hc. exact Hin.
Qed.

(** X2: whatever the line, the parser returns at least one field, and no
    field holds a double quote or has whitespace at either end. *)
Theorem parseCSVLine_fields_are_clean (line : jsstring) :
  1 <= length (parseCSVLine line)
  /\ forall f, In f (parseCSVLine line) ->
       ~ In c_quote f
       /\ trim f = f
       /\ (forall c rest, f = c :: rest -> isWhiteSpace c = false)
       /\ (forall front c, f = front ++ [c] -> isWhiteSpace c = false).
Proof.
  destruct (parseLoop_fields_ok line [] [] false) as [Hok Hlen];
    [constructor | intros [] |].
  split; [unfold parseCSVLine; lia|].
  intros f Hin. rewrite Forall_forall in Hok.
  destruct (Hok f) as (Hq & Htrim & Hstart & Hend).
  { apply list_elem_of_In. exact Hin. }
  split; [exact Hq|]. split; [exact Htrim|]. split.
  - intros c rest ->. exact Hstart.
  - intros front c ->. rewrite rev_app_distr in Hend. exact Hend.
Qed.

Lemma parseCSVLine_fields_are_clean_witness :
  trim (lit "b,c") = lit "b,c" /\ ~ In c_quote (lit "b,c").
Proof.
  destruct (parseCSVLine_fields_are_clean
              (lit "a," ++ [c_quote] ++ lit " b,c " ++ [c_quote] ++ lit ",d")) as [_ H].
  destruct (H (lit "b,c")) as (Hq & Htrim & _).
  - vm_compute. right. left. reflexivity.
  - split; [exact Htrim | exact Hq].
Defined.

(** ** Export and import together *)

Lemma exportField_quoteField (account : obj) (header : jsstring) :
  exportField account header = quoteField (fieldText account header).
Proof.
  unfold exportField, fieldText, quoteField.
  destruct (getProp account header) as [| |s|items]; try reflexivity.
  destruct (jsstring_eqb header (lit "tags")); reflexivity.
Qed.

Lemma removeQuotes_plain (t : jsstring) : ~ In c_quote t -> removeQuotes t = t.
Proof.
  unfold removeQuotes. induction t as [|c t IH]; intros H; cbn [List.filter]; [reflexivity|].
  destruct (N.eqb_spec c c_quote) as [->|Hc]; [exfalso; apply H; left; reflexivity|].
  cbn [negb]. rewrite IH; [reflexivity|]. intros Hin. apply H. right. exact Hin.
Qed.

Lemma parseLoop_doubled (t : jsstring) : forall rest result current,
  parseLoop (doubleQuotes t ++ rest) result current true
  = parseLoop rest result (current ++ removeQuotes t) true.
Proof.
  unfold removeQuotes.
  induction t as [|c t IH]; intros rest result current; cbn [doubleQuotes List.filter app].
  - rewrite app_nil_r. reflexivity.
  - destruct (N.eqb_spec c c_quote) as [->|Hc]; cbn [app parseLoop negb].
    + change (c_quote =? c_quote)%N with true. cbn [negb]. apply IH.
    + destruct (N.eqb_spec c c_quote) as [E|_]; [contradiction|].
      rewrite andb_false_r. rewrite IH. rewrite <- app_assoc. reflexivity.
Qed.

Lemma parseLoop_plain (t : jsstring) : forall rest result current,
  ~ In c_quote t -> ~ In c_comma t ->
  parseLoop (t ++ rest) result current false = parseLoop rest result (current ++ t) false.
Proof.
  induction t as [|c t IH]; intros rest result current Hq Hc; cbn [app parseLoop].
  - rewrite app_nil_r. reflexivity.
  - destruct (N.eqb_spec c c_quote) as [->|_]; [exfalso; apply Hq; left; reflexivity|].
    destruct (N.eqb_spec c c_comma) as [->|_]; [exfalso; apply Hc; left; reflexivity|].
    cbn [andb]. rewrite IH.
    + rewrite <- app_assoc. reflexivity.
    + intros H. apply Hq. right. exact H.
    + intros H. apply Hc. right. exact H.
Qed.

Lemma includesChar_false (c : N) (s : jsstring) : includesChar c s = false -> ~ In c s.
Proof. intros H Hin. apply includesChar_In in Hin. congruence. Qed.

Lemma parseLoop_quoteField (t rest : jsstring) (result : list jsstring) (current : jsstring) :
  parseLoop (quoteField t ++ rest) result current false
  = parseLoop rest result (current ++ removeQuotes t) false.
Proof.
  unfold quoteField.
  destruct (includesChar c_comma t) eqn:Ecomma; cbn [orb].
  - cbn [app parseLoop]. change (c_quote =? c_quote)%N with true. cbn [negb].
    rewrite <- app_assoc. rewrite parseLoop_doubled. cbn [app parseLoop].
    change (c_quote =? c_quote)%N with true. reflexivity.
  - destruct (includesChar c_quote t) eqn:Equote; cbn [orb].
    + cbn [app parseLoop]. change (c_quote =? c_quote)%N with true. cbn [negb].
      rewrite <- app_assoc. rewrite parseLoop_doubled. cbn [app parseLoop].
      change (c_quote =? c_quote)%N with true. reflexivity.
    + apply includesChar_false in Ecomma. apply includesChar_false in Equote.
      destruct (includesChar c_newline t).
      * cbn [app parseLoop]. change (c_quote =? c_quote)%N with true. cbn [negb].
        rewrite <- app_assoc. rewrite parseLoop_doubled. cbn [app parseLoop].
        change (c_quote =? c_quote)%N with true. reflexivity.
      * rewrite parseLoop_plain by assumption.
        rewrite removeQuotes_plain by exact Equote. reflexivity.
Qed.

Lemma parseLoop_join (texts : list jsstring) : forall t result,
  parseLoop (join [c_comma] (List.map quoteField (t :: texts))) result [] false
  = result ++ List.map (fun s => trim (removeQuotes s)) (t :: texts).
Proof.
  induction texts as [|t' texts IH]; intros t result.
  - cbn [List.map join]. rewrite <- (app_nil_r (quoteField t)).
    rewrite parseLoop_quoteField. reflexivity.
  - change (join [c_comma] (List.map quoteField (t :: t' :: texts)))
      with (quoteField t ++ [c_comma] ++ join [c_comma] (List.map quoteField (t' :: texts))).
    rewrite parseLoop_quoteField. cbn [app parseLoop].
    change (c_comma =? c_quote)%N with false. change (c_comma =? c_comma)%N with true.
    cbn [andb negb]. rewrite IH. rewrite <- app_assoc. reflexivity.
Qed.

Lemma parse_exportRow (account : obj) :
  parseCSVLine (exportRow account)
  = List.map (fun header => trim (removeQuotes (fieldText account header))) exportHeaders.
Proof.
  unfold parseCSVLine, exportRow.
  rewrite (List.map_ext _ _ (exportField_quoteField account)).
  rewrite <- (List.map_map (fieldText account) quoteField).
  set (texts := List.map (fieldText account) exportHeaders).
  assert (Htexts : texts = fieldText account (lit "id")
                           :: List.map (fieldText account) (tl exportHeaders))
    by reflexivity.
  rewrite Htexts, parseLoop_join, <- Htexts. cbn [app]. subst texts.
  rewrite List.map_map. reflexivity.
Qed.

(** X3: parsing an exported row gives back, column by column, the text of
    each exported field without its double quotes and outer whitespace; commas
    and newlines inside a field survive, and there are always 17 fields. *)
Theorem exported_row_parses_back (account : obj) :
  parseCSVLine (exportRow account)
  = List.map (fun header => trim (removeQuotes (fieldText account header))) exportHeaders
  /\ length (parseCSVLine (exportRow account)) = 17.
Proof.
  split; [apply parse_exportRow|]. rewrite parse_exportRow, length_map. reflexivity.
Qed.

Lemma lookup_map {A B} (f : A -> B) (l : list A) (i : nat) :
  List.map f l !! i = option_map f (l !! i).
Proof.
  revert i. induction l as [|x l IH]; intros [|i]; cbn; try reflexivity. apply IH.
Qed.

Lemma exportHeaders_NoDup : NoDup exportHeaders.
Proof. apply (bool_decide_unpack _). vm_compute. exact I. Qed.

Lemma exportHeaders_not_proto (header : jsstring) :
  In header exportHeaders -> header <> lit "__proto__".
Proof.
  intros Hin ->. revert Hin. apply (bool_decide_unpack (lit "__proto__" ∉ exportHeaders)).
  vm_compute. exact I.
Qed.

(** The row object built from an exported row, cell by cell. *)
Lemma exported_cell_reimported (account : obj) (header : jsstring) :
  In header exportHeaders ->
  getProp (buildRecord exportHeaders (parseCSVLine (exportRow account))) header
  = jsOr (JStr (trim (removeQuotes (fieldText account header)))) JNull.
Proof.
  intros Hin. pose proof (exportHeaders_not_proto header Hin) as Hproto.
  apply list_elem_of_In, list_elem_of_lookup in Hin as [idx Hidx].
  unfold getProp, buildRecord, buildRow.
  rewrite (assignLoop_last_wins exportHeaders header Hproto idx 0 _ emptyRow Hidx).
  - cbn [Nat.add default]. rewrite parse_exportRow. unfold at_index.
    rewrite lookup_map, Hidx. reflexivity.
  - intros later Hlt Hlater.
    pose proof (NoDup_lookup _ _ _ _ exportHeaders_NoDup Hidx Hlater). lia.
Qed.

Lemma exported_row_identity
    (account : obj) (userId id name : jsstring) (i : nat) :
  getProp account (lit "id") = JStr id ->
  getProp account (lit "company_name") = JStr name ->
  cleanText id -> cleanText name ->
  let r := recordOf (processRow exportHeaders userId i (exportRow account)) in
  processRow exportHeaders userId i (exportRow account) = inr r
  /\ getProp r (lit "id") = JStr id
  /\ getProp r (lit "company_name") = JStr name
  /\ truthy (getProp r (lit "id")) = true.
Proof.
  intros Hid Hname [Hcid Hnid] [Hcname Hnname] r.
  assert (Ecell_id : getProp (buildRecord exportHeaders (parseCSVLine (exportRow account)))
                       (lit "id") = JStr id).
  { rewrite exported_cell_reimported by (vm_compute; tauto).
    unfold fieldText. rewrite Hid, Hcid. unfold jsOr. cbn [truthy].
    destruct id; [contradiction | reflexivity]. }
  assert (Ecell_name : getProp (buildRecord exportHeaders (parseCSVLine (exportRow account)))
                         (lit "company_name") = JStr name).
  { rewrite exported_cell_reimported by (vm_compute; tauto).
    unfold fieldText. rewrite Hname, Hcname. unfold jsOr. cbn [truthy].
    destruct name; [contradiction | reflexivity]. }
  assert (Hcompany : companyNameOf (buildRecord exportHeaders (parseCSVLine (exportRow account)))
                     = JStr name).
  { unfold companyNameOf. rewrite Ecell_name. unfold jsOr. cbn [truthy].
    destruct name; [contradiction | reflexivity]. }
  assert (E : processRow exportHeaders userId i (exportRow account) = inr r).
  { apply processRow_valid. rewrite Hcompany. destruct name; [contradiction | reflexivity]. }
  destruct (processRow_record _ _ _ _ _ E) as (_ & _ & _ & _ & Hrname & Hrid).
  split; [exact E|]. rewrite Hrid, Hrname, Ecell_id, Hcompany. unfold jsOr. cbn [truthy].
  destruct id; [contradiction|]. repeat split; reflexivity.
Qed.

(** X4: an exported row imported again under the export's headers is a valid
    row, and its record carries the account's own [id] and [company_name]
    when these are texts without double quote or outer whitespace; so the
    reconciliation looks the account up by that id. *)
Theorem exported_row_keeps_identity
    (account : obj) (userId id name : jsstring) (i : nat) :
  getProp account (lit "id") = JStr id ->
  getProp account (lit "company_name") = JStr name ->
  cleanText id -> cleanText name ->
  let r := recordOf (processRow exportHeaders userId i (exportRow account)) in
  processRow exportHeaders userId i (exportRow account) = inr r
  /\ getProp r (lit "id") = JStr id
  /\ getProp r (lit "company_name") = JStr name
  /\ truthy (getProp r (lit "id")) = true.
Proof. apply exported_row_identity. Qed.

Lemma exported_row_keeps_identity_witness :
  let r := recordOf (processRow exportHeaders (lit "alice") 1 (exportRow acme)) in
  getProp r (lit "id") = JStr (lit "7") /\ getProp r (lit "company_name") = JStr (lit "Acme").
Proof.
  intros r.
  destruct (exported_row_keeps_identity acme (lit "alice") (lit "7") (lit "Acme") 1)
    as (_ & Hid & Hname & _).
  - reflexivity.
  - reflexivity.
  - split; [vm_compute; reflexivity | discriminate].
  - split; [vm_compute; reflexivity | discriminate].
  - split; [exact Hid | exact Hname].
Defined.

Lemma split_join (sep : N -> bool) (c : N) (pieces : list jsstring) : forall p,
  sep c = true ->
  (forall q, In q (p :: pieces) -> forallb (fun x => negb (sep x)) q = true) ->
  split sep (join [c] (p :: pieces)) = p :: pieces.
Proof.
  unfold split. induction pieces as [|p' pieces IH]; intros p Hc Hp.
  - cbn [join]. rewrite <- (app_nil_r p) at 1.
    rewrite splitLoop_skip by (apply Hp; left; reflexivity). reflexivity.
  - change (join [c] (p :: p' :: pieces)) with (p ++ c :: join [c] (p' :: pieces)).
    rewrite splitLoop_skip by (apply Hp; left; reflexivity).
    cbn [splitLoop app]. rewrite Hc. f_equal. apply IH; [exact Hc|].
    intros q Hq. apply Hp. right. exact Hq.
Qed.

Lemma no_char_forallb (c : N) (s : jsstring) :
  ~ In c s -> forallb (fun x => negb (c =? x)%N) s = true.
Proof.
  intros H. apply forallb_forall. intros x Hx.
  destruct (N.eqb_spec c x) as [->|_]; [contradiction | reflexivity].
Qed.

Lemma validTags_shape (t : jsstring) :
  In t validTags ->
  forallb (fun x => negb (isTagSeparator x)) t = true /\ trim t = t /\ nonEmpty t = true.
Proof.
  intros Hin.
  assert (H : forallb (fun t => forallb (fun x => negb (isTagSeparator x)) t
                                && bool_decide (trim t = t) && nonEmpty t) validTags = true)
    by (vm_compute; reflexivity).
  rewrite forallb_forall in H. specialize (H t Hin).
  apply andb_prop in H as [H H3]. apply andb_prop in H as [H1 H2].
  apply bool_decide_eq_true in H2. repeat split; assumption.
Qed.

(** X5: a non-empty list of valid tags, written by the export as one field
    joined with semicolons, is read back by the import as the same list. *)
Theorem exported_tags_read_back (items : list jsstring) :
  items <> [] ->
  (forall t, In t items -> In t validTags) ->
  parseTags (JStr (join [c_semicolon] items)) = items.
Proof.
  intros Hne Hvalid. destruct items as [|t items]; [contradiction|].
  cbn [parseTags].
  assert (Hnonempty : nonEmpty (join [c_semicolon] (t :: items)) = true).
  { destruct (validTags_shape t) as (_ & _ & Ht); [apply Hvalid; left; reflexivity|].
    destruct t as [|c t]; [discriminate Ht|]. destruct items; reflexivity. }
  rewrite Hnonempty. rewrite split_join.
  - assert (Htrim : List.map trim (t :: items) = t :: items).
    { rewrite <- (List.map_id (t :: items)) at 2. apply List.map_ext_in.
      intros x Hx. apply validTags_shape, Hvalid, Hx. }
    rewrite Htrim. apply forallb_filter_id. apply forallb_forall. intros x Hx.
    rewrite includes_elem_of. apply bool_decide_eq_true, list_elem_of_In, Hvalid, Hx.
  - reflexivity.
  - intros q Hq. apply validTags_shape, Hvalid, Hq.
Qed.

Lemma exported_tags_read_back_witness :
  parseTags (JStr (lit "FuSa;OTA;Vehicle Network"))
  = [lit "FuSa"; lit "OTA"; lit "Vehicle Network"].
Proof.
  apply (exported_tags_read_back [lit "FuSa"; lit "OTA"; lit "Vehicle Network"]).
  - discriminate.
  - assert (H : forallb (includes validTags)
                  [lit "FuSa"; lit "OTA"; lit "Vehicle Network"] = true)
      by (vm_compute; reflexivity).
    rewrite forallb_forall in H. intros t Ht. specialize (H t Ht).
    rewrite includes_elem_of in H. apply bool_decide_eq_true in H.
    apply list_elem_of_In. exact H.
Defined.

Lemma trimStart_keeps (c : N) (s : jsstring) :
  isWhiteSpace c = false -> In c s -> In c (trimStart s).
Proof.
  intros Hc. induction s as [|x s IH]; cbn [trimStart]; [tauto|].
  destruct (isWhiteSpace x) eqn:Ex; [|tauto].
  intros [->|Hin]; [congruence | apply IH, Hin].
Qed.

Lemma trim_keeps (c : N) (s : jsstring) :
  isWhiteSpace c = false -> In c s -> In c (trim s).
Proof.
  intros Hc Hin. unfold trim, trimEnd. apply -> in_rev.
  apply trimStart_keeps; [exact Hc|]. apply -> in_rev.
  apply trimStart_keeps; assumption.
Qed.

Lemma nonBlank_of_char (c : N) (s : jsstring) :
  isWhiteSpace c = false -> In c s -> nonBlank s = true.
Proof.
  intros Hc Hin. unfold nonBlank. pose proof (trim_keeps c s Hc Hin) as H.
  destruct (trim s); [destruct H | reflexivity].
Qed.

Lemma join_In (c : N) (sep : jsstring) (pieces : list jsstring) :
  In c (join sep pieces) -> In c sep \/ exists p, In p pieces /\ In c p.
Proof.
  induction pieces as [|p pieces IH]; cbn [join]; [intros []|].
  destruct pieces as [|p' pieces].
  - intros H. right. exists p. split; [left; reflexivity | exact H].
  - intros H. apply in_app_or in H as [H|H].
    + right. exists p. split; [left; reflexivity | exact H].
    + apply in_app_or in H as [H|H]; [left; exact H|].
      destruct (IH H) as [Hs|(q & Hq & Hc)]; [left; exact Hs|].
      right. exists q. split; [right; exact Hq | exact Hc].
Qed.

Lemma doubleQuotes_In (c : N) (s : jsstring) :
  In c (doubleQuotes s) -> c = c_quote \/ In c s.
Proof.
  induction s as [|x s IH]; cbn [doubleQuotes]; [intros []|].
  destruct (N.eqb_spec x c_quote) as [->|_]; cbn [In]; intuition.
Qed.

Lemma quoteField_newline (t : jsstring) :
  In c_newline (quoteField t) -> In c_newline t.
Proof.
  unfold quoteField.
  destruct (includesChar c_comma t || includesChar c_quote t || includesChar c_newline t);
    [|tauto].
  intros H. apply in_app_or in H as [[H|[]]|H]; [discriminate H|].
  apply in_app_or in H as [H|[H|[]]]; [|discriminate H].
  apply doubleQuotes_In in H as [H|H]; [discriminate H | exact H].
Qed.

Lemma exportRow_no_newline (account : obj) :
  (forall header, In header exportHeaders -> ~ In c_newline (fieldText account header)) ->
  ~ In c_newline (exportRow account).
Proof.
  intros Htext H. unfold exportRow in H. apply join_In in H as [[H|[]]|(p & Hp & Hc)].
  - discriminate H.
  - apply in_map_iff in Hp as (header & <- & Hheader).
    rewrite exportField_quoteField in Hc. apply quoteField_newline in Hc.
    exact (Htext header Hheader Hc).
Qed.

Lemma exportRow_has_comma (account : obj) : In c_comma (exportRow account).
Proof.
  unfold exportRow.
  change (List.map (exportField account) exportHeaders)
    with (exportField account (lit "id")
            :: List.map (exportField account) (tl exportHeaders)).
  change (In c_comma (exportField account (lit "id") ++ [c_comma]
                        ++ join [c_comma] (List.map (exportField account) (tl exportHeaders)))).
  apply in_or_app. right. left. reflexivity.
Qed.

Lemma exported_file_lines_aux (data : list obj) :
  (forall account header, In account data -> In header exportHeaders ->
     ~ In c_newline (fieldText account header)) ->
  csvLines (csvContent data) = headerRow :: List.map exportRow data.
Proof.
  intros Htext. unfold csvLines, csvContent.
  change (join [c_comma] exportHeaders) with headerRow.
  rewrite split_join.
  - apply forallb_filter_id. apply forallb_forall. intros line [<-|Hline].
    + vm_compute. reflexivity.
    + apply in_map_iff in Hline as (account & <- & _).
      apply (nonBlank_of_char c_comma); [reflexivity | apply exportRow_has_comma].
  - reflexivity.
  - intros line [<-|Hline].
    + vm_compute. reflexivity.
    + apply in_map_iff in Hline as (account & <- & Haccount).
      apply no_char_forallb. apply exportRow_no_newline.
      intros header Hheader. apply Htext; assumption.
Qed.

(** X6: when no exported field holds a newline, the lines the import reads
    from an exported file are the header row followed by one line per account,
    in order: no row is lost, split or merged. *)
Theorem exported_file_lines (data : list obj) :
  (forall account header, In account data -> In header exportHeaders ->
     ~ In c_newline (fieldText account header)) ->
  csvLines (csvContent data) = headerRow :: List.map exportRow data.
Proof. apply exported_file_lines_aux. Qed.

Lemma exported_file_lines_witness :
  csvLines (csvContent [acme]) = [headerRow; exportRow acme].
Proof.
  apply (exported_file_lines [acme]).
  intros account header [<-|[]] Hheader Hin.
  apply includesChar_In in Hin. revert Hin.
  assert (H : forallb (fun h => negb (includesChar c_newline (fieldText acme h)))
                exportHeaders = true) by (vm_compute; reflexivity).
  rewrite forallb_forall in H. specialize (H header Hheader).
  destruct (includesChar c_newline (fieldText acme header)); [discriminate H | discriminate].
Defined.

(** X7: the name of the downloaded file is [accounts_export_], the part of
    the timestamp before its first [T], and [.csv]. *)
Theorem exportFileName_of_timestamp (date time : jsstring) :
  ~ In 84%N date ->
  exportFileName (date ++ 84%N :: time) = lit "accounts_export_" ++ date ++ lit ".csv".
Proof.
  intros H. unfold exportFileName, split.
  rewrite splitLoop_skip by (apply no_char_forallb; exact H).
  cbn [splitLoop app]. change (84 =? 84)%N with true. reflexivity.
Qed.

Lemma exportFileName_of_timestamp_witness :
  exportFileName (lit "2024-05-01T10:00:00.000Z") = lit "accounts_export_2024-05-01.csv".
Proof.
  apply (exportFileName_of_timestamp (lit "2024-05-01") (lit "10:00:00.000Z")).
  intros H. apply includesChar_In in H. vm_compute in H. discriminate H.
Defined.

(** ** The validated record: what every one of them satisfies *)

Lemma processRow_fields headers userId i line r :
  processRow headers userId i line = inr r ->
  let record := buildRecord headers (parseCSVLine line) in
  truthy (companyNameOf record) = true
  /\ getProp r (lit "status")
     = (let status := jsOr (getProp record (lit "status")) (JStr (lit "New")) in
        if negb (includesVal validStatuses status) then JStr (lit "New") else status)
  /\ (forall key, In key optionalFields ->
        getProp r key = jsOr (getProp record key) JNull)
  /\ dom r = list_to_set recordKeys.
Proof.
  intros H record. unfold processRow in H. fold record in H.
  destruct (truthy (companyNameOf record)) eqn:Hcompany; [|discriminate H].
  cbn [negb] in H. injection H as <-.
  split; [reflexivity|]. split; [read_literal|]. split.
  - intros key Hkey. cbn [optionalFields In] in Hkey.
    repeat (destruct Hkey as [<-|Hkey]; [read_literal|]). destruct Hkey.
  - read_literal.
Qed.

Lemma at_index_text (values : list jsstring) (idx : nat) :
  text_or_null (jsOr (at_index values idx) JNull).
Proof.
  unfold at_index, jsOr. destruct (values !! idx) as [[|c s]|]; cbn [truthy nonEmpty].
  - left. reflexivity.
  - right. eexists. split; [reflexivity | discriminate].
  - left. reflexivity.
Qed.

Lemma assignLoop_cells_text (headers : list jsstring) : forall idx values (record : rowObject),
  (forall key v, own record !! key = Some v -> text_or_null v) ->
  forall key v, own (assignLoop headers idx values record) !! key = Some v -> text_or_null v.
Proof.
  induction headers as [|header rest IH]; intros idx values record Hrec key v; cbn [assignLoop].
  - apply Hrec.
  - apply IH. intros key' v'. unfold setProp.
    destruct (bool_decide (header = lit "__proto__") && inherits record).
    + destruct (jsOr (at_index values idx) JNull); apply Hrec.
    + cbn [own]. rewrite lookup_insert. destruct (decide (header = key')).
      * intros [= <-]. apply at_index_text.
      * apply Hrec.
Qed.

Lemma buildRecord_cell (headers values : list jsstring) (key : jsstring) :
  text_or_null (jsOr (getProp (buildRecord headers values) key) JNull).
Proof.
  unfold getProp, buildRecord, buildRow.
  destruct (own (assignLoop headers 0 values emptyRow) !! key) as [v|] eqn:E; cbn [default].
  - destruct (assignLoop_cells_text headers 0 values emptyRow) with (key := key) (v := v)
      as [->|(s & -> & Hs)].
    + intros k x. cbn [emptyRow own]. rewrite lookup_empty. discriminate.
    + exact E.
    + left. reflexivity.
    + right. exists s. split; [|exact Hs]. unfold jsOr. cbn [truthy].
      destruct s; [contradiction | reflexivity].
  - left. reflexivity.
Qed.

Lemma parseTags_valid (cell : jsval) (t : jsstring) :
  In t (parseTags cell) -> In t validTags.
Proof.
  destruct cell as [| |s|items]; cbn [parseTags]; try (intros []).
  destruct (nonEmpty s); [|intros []].
  intros H. apply filter_In in H as [_ H]. rewrite includes_elem_of in H.
  apply bool_decide_eq_true in H. apply list_elem_of_In. exact H.
Qed.

(** X8: the status of a validated record is always one of the seven valid
    statuses: the row's own status when that is valid, [New] in every other
    case (missing, empty or unknown). *)
Theorem status_is_always_valid
    (headers : list jsstring) (userId : jsstring) (i : nat) (line : jsstring) (r : obj) :
  processRow headers userId i line = inr r ->
  let given := getProp (buildRecord headers (parseCSVLine line)) (lit "status") in
  getProp r (lit "status") = (if includesVal validStatuses given then given else JStr (lit "New"))
  /\ includesVal validStatuses (getProp r (lit "status")) = true.
Proof.
  intros H given. destruct (processRow_fields _ _ _ _ _ H) as (_ & Hstatus & _).
  fold given in Hstatus. cbv zeta in Hstatus.
  assert (Heq : getProp r (lit "status")
                = (if includesVal validStatuses given then given else JStr (lit "New"))).
  { rewrite Hstatus. unfold jsOr.
    destruct given as [| |s|items]; cbn [truthy]; try reflexivity.
    destruct s as [|c s]; cbn [nonEmpty]; [reflexivity|].
    destruct (includesVal validStatuses (JStr (c :: s))); reflexivity. }
  split; [exact Heq|]. rewrite Heq.
  destruct (includesVal validStatuses given) eqn:E; [exact E | reflexivity].
Qed.

Lemma status_is_always_valid_witness :
  getProp (recordOf (processRow [lit "name"; lit "status"] (lit "alice") 1 (lit "Acme,hot")))
          (lit "status") = JStr (lit "New").
Proof.
  destruct (status_is_always_valid [lit "name"; lit "status"] (lit "alice") 1 (lit "Acme,hot")
              (recordOf (processRow [lit "name"; lit "status"] (lit "alice") 1 (lit "Acme,hot"))))
    as [H _].
  - apply processRow_valid. vm_compute. reflexivity.
  - rewrite H. vm_compute. reflexivity.
Defined.

(** X9: a validated record has exactly the fifteen keys of the object literal;
    its company name is a non-empty value; its [id] and each optional text
    column is [null] or a non-empty string, never the empty string and never
    missing; its [tags] is [null] or a non-empty array of valid tags. *)
Theorem validated_record_is_well_formed
    (headers : list jsstring) (userId : jsstring) (i : nat) (line : jsstring) (r : obj) :
  processRow headers userId i line = inr r ->
  dom r = list_to_set recordKeys
  /\ truthy (getProp r (lit "company_name")) = true
  /\ text_or_null (getProp r (lit "id"))
  /\ (forall key, In key optionalFields -> text_or_null (getProp r key))
  /\ (getProp r (lit "tags") = JNull
      \/ exists items, getProp r (lit "tags") = JArr items /\ items <> []
                       /\ forall t, In t items -> In t validTags).
Proof.
  intros H. destruct (processRow_fields _ _ _ _ _ H) as (Hcompany & _ & Hopt & Hdom).
  destruct (processRow_record _ _ _ _ _ H) as (Htags & _ & _ & _ & Hname & Hid).
  split; [exact Hdom|]. split; [rewrite Hname; exact Hcompany|].
  split; [rewrite Hid; apply buildRecord_cell|]. split.
  - intros key Hkey. rewrite (Hopt key Hkey). apply buildRecord_cell.
  - rewrite Htags.
    destruct (parseTags (getProp (buildRecord headers (parseCSVLine line)) (lit "tags")))
      as [|t items] eqn:E; cbn [length Nat.ltb Nat.leb].
    + left. reflexivity.
    + right. exists (t :: items). split; [reflexivity|]. split; [discriminate|].
      intros x Hx. rewrite <- E in Hx. apply parseTags_valid in Hx. exact Hx.
Qed.

Lemma validated_record_is_well_formed_witness :
  text_or_null (getProp (recordOf (processRow [lit "name"; lit "email"] (lit "alice") 1
                                     (lit "Acme,  ")))
                        (lit "email")).
Proof.
  destruct (validated_record_is_well_formed [lit "name"; lit "email"] (lit "alice") 1
              (lit "Acme,  ")
              (recordOf (processRow [lit "name"; lit "email"] (lit "alice") 1 (lit "Acme,  "))))
    as (_ & _ & _ & H & _).
  - apply processRow_valid. vm_compute. reflexivity.
  - apply H. left. reflexivity.
Defined.

(** ** The row loop: every row is accounted for *)

Lemma rowsLoop_total headers userId rows : forall i,
  length (fst (rowsLoop headers userId i rows [] []))
  + length (snd (rowsLoop headers userId i rows [] [])) = length rows.
Proof.
  induction rows as [|line rest IH]; intros i; cbn [rowsLoop]; [reflexivity|].
  destruct (processRow headers userId i line) as [e|r];
    rewrite rowsLoop_acc; cbn [fst snd length]; rewrite !length_app;
    specialize (IH (S i)); cbn [length]; lia.
Qed.

Lemma no_property_without_header (headers values : list jsstring) (key : jsstring) :
  ~ In key headers -> buildRecord headers values !! key = None.
Proof.
  intros H. unfold buildRecord, buildRow. rewrite assignLoop_untouched.
  - apply lookup_empty.
  - intros j Hj. apply H. apply list_elem_of_In. apply list_elem_of_lookup. exists j. exact Hj.
Qed.

Lemma rowsLoop_all_errors headers userId rows : forall i,
  ~ In (lit "company_name") headers -> ~ In (lit "name") headers ->
  ~ In (lit "company") headers ->
  rowsLoop headers userId i rows [] [] = ([], List.map rowError (seq i (length rows))).
Proof.
  intros i H1 H2 H3. revert i. induction rows as [|line rest IH]; intros i;
    cbn [rowsLoop length seq List.map]; [reflexivity|].
  rewrite processRow_missing_key
    by (cbv zeta; unfold getProp; rewrite no_property_without_header by assumption;
        reflexivity).
  rewrite rowsLoop_acc, IH. reflexivity.
Qed.

Section ValidationProperties.

Variable toLowerCase : jsstring -> jsstring.

(** X10: every data line of the file yields either one record or one error:
    the records and the errors together are as many as the lines after the
    header. *)
Theorem every_row_is_a_record_or_an_error (userId : jsstring) (lines : list jsstring) :
  length (fst (validate toLowerCase userId lines))
  + length (snd (validate toLowerCase userId lines)) = length lines - 1.
Proof.
  unfold validate. rewrite rowsLoop_total. destruct lines; cbn [tl length]; lia.
Qed.

(** X11: when no header normalizes to [company_name], [name] or [company],
    no row yields a record: every data line yields the error of its row
    number, from 2 on. *)
Theorem file_without_company_column (userId : jsstring) (lines : list jsstring) :
  ~ In (lit "company_name") (headersOf toLowerCase lines) ->
  ~ In (lit "name") (headersOf toLowerCase lines) ->
  ~ In (lit "company") (headersOf toLowerCase lines) ->
  validate toLowerCase userId lines
  = ([], List.map (fun n => lit "Row " ++ showNat n ++ lit ": Missing company_name")
                  (seq 2 (length lines - 1))).
Proof.
  intros H1 H2 H3. unfold validate. rewrite rowsLoop_all_errors by assumption.
  replace (length (tl lines)) with (length lines - 1) by (destruct lines; cbn; lia).
  f_equal. rewrite <- (seq_shift (length lines - 1) 1), List.map_map.
  apply List.map_ext. intros n. unfold rowError.
  replace (n + 1) with (S n) by lia. reflexivity.
Qed.

(** X12: a normalized header holds only the characters [a-z], [0-9] and
    underscore, one per character of the lower-cased header, and a lower-cased
    header made of these characters only is kept as it is. *)
Theorem normalizeHeader_shape (h : jsstring) :
  forallb keepHeaderChar (normalizeHeader toLowerCase h) = true
  /\ length (normalizeHeader toLowerCase h) = length (toLowerCase h)
  /\ (forallb keepHeaderChar (toLowerCase h) = true ->
      normalizeHeader toLowerCase h = toLowerCase h).
Proof.
  unfold normalizeHeader, replaceNonKey. split; [|split].
  - induction (toLowerCase h) as [|c s IH]; [reflexivity|].
    cbn [List.map forallb]. rewrite IH, andb_true_r.
    destruct (keepHeaderChar c) eqn:E; [exact E | reflexivity].
  - apply length_map.
  - induction (toLowerCase h) as [|c s IH]; [reflexivity|].
    cbn [List.map forallb]. intros H. apply andb_prop in H as [Hc Hs].
    rewrite Hc, IH by exact Hs. reflexivity.
Qed.

End ValidationProperties.

Lemma file_without_company_column_witness :
  validate asciiLowerCase (lit "alice") [lit "Email,Phone"; lit "a@acme.io,1"; lit "b@bolt.io,2"]
  = ([], [lit "Row 2: Missing company_name"; lit "Row 3: Missing company_name"]).
Proof.
  rewrite file_without_company_column.
  - vm_compute. reflexivity.
  - intros H. vm_compute in H. intuition discriminate.
  - intros H. vm_compute in H. intuition discriminate.
  - intros H. vm_compute in H. intuition discriminate.
Defined.

Lemma normalizeHeader_shape_witness :
  normalizeHeader asciiLowerCase (lit "Company_Name") = lit "company_name".
Proof.
  destruct (normalizeHeader_shape asciiLowerCase (lit "Company_Name")) as (_ & _ & H).
  rewrite H; vm_compute; reflexivity.
Defined.

(** ** The upsert loop as a whole *)

Lemma count_app (p : event -> bool) (t1 t2 : list event) :
  count p (t1 ++ t2) = count p t1 + count p t2.
Proof. unfold count. rewrite List.filter_app, length_app. reflexivity. Qed.

Lemma reconcileRecord_run {W} (s : service W) (w : W) (record : obj) (counts : nat * nat) :
  let r := run s (reconcileRecord record counts) w in
  count isWrite (trace_of r) = 1
  /\ result_of r = (fst counts + count insertedOk (trace_of r),
                    snd counts + count updatedOk (trace_of r))
  /\ forallb isServiceCall (trace_of r) = true.
Proof.
  destruct counts as [sc uc]. cbv zeta.
  unfold reconcileRecord, upsertByCompanyName, updateExisting, result_of, trace_of, count.
  destruct (truthy (getProp record (lit "id"))); cbn [run];
    answer_calls; cbn [run fst snd List.filter isWrite insertedOk updatedOk length
                       forallb isServiceCall andb];
    (split; [reflexivity | split; [f_equal; lia | reflexivity]]).
Qed.

Lemma reconcile_run {W} (s : service W) (records : list obj) : forall (w : W) (counts : nat * nat),
  let r := run s (reconcile records counts) w in
  count isWrite (trace_of r) = length records
  /\ result_of r = (fst counts + count insertedOk (trace_of r),
                    snd counts + count updatedOk (trace_of r))
  /\ forallb isServiceCall (trace_of r) = true.
Proof.
  induction records as [|record rest IH]; intros w counts; cbv zeta.
  - cbn [reconcile run]. unfold result_of, trace_of, count. cbn.
    rewrite !Nat.add_0_r. destruct counts. repeat split.
  - cbn [reconcile]. rewrite run_bind.
    pose proof (reconcileRecord_run s w record counts) as H1. cbv zeta in H1.
    destruct (run s (reconcileRecord record counts) w) as [[counts1 w1] t1].
    pose proof (IH w1 counts1) as H2. cbv zeta in H2.
    destruct (run s (reconcile rest counts1) w1) as [[counts2 w2] t2].
    unfold result_of, trace_of in *. cbn [fst snd] in *.
    destruct H1 as (Hw1 & Hc1 & Hs1). destruct H2 as (Hw2 & Hc2 & Hs2).
    rewrite !count_app, forallb_app, Hw1, Hw2, Hs1, Hs2, Hc2, Hc1. cbn [fst snd length andb].
    repeat split. f_equal; lia.
Qed.

Lemma successful_writes_le (trace : list event) :
  count insertedOk trace + count updatedOk trace <= count isWrite trace.
Proof.
  unfold count. induction trace as [|e t IH]; [reflexivity|].
  cbn [List.filter].
  destruct e as [| | | |p i [err|]|p [err|]| | | | |];
    cbn [insertedOk updatedOk isWrite length]; lia.
Qed.

(** X13: the upsert loop issues exactly one insert or update per record, and
    the two tallies it returns are the numbers of inserts and of updates that
    reported no error; so the tallies never add up to more than the number of
    records. *)
Theorem reconcile_one_write_per_record
    {W} (s : service W) (w : W) (records : list obj) :
  let r := run s (reconcile records (0, 0)) w in
  count isWrite (trace_of r) = length records
  /\ fst (result_of r) = count insertedOk (trace_of r)
  /\ snd (result_of r) = count updatedOk (trace_of r)
  /\ fst (result_of r) + snd (result_of r) <= length records.
Proof.
  cbv zeta. destruct (reconcile_run s records w (0, 0)) as (Hw & Hc & _).
  rewrite Hc. cbn [fst snd Nat.add]. split; [exact Hw|]. split; [reflexivity|].
  split; [reflexivity|]. rewrite <- Hw. apply successful_writes_le.
Qed.

(** X14: a record whose identifier is found is updated under that very
    identifier: the run is the id lookup, the clock, and one update of the
    record without its [id] and with [updated_at]; the company name is not
    looked up and nothing is inserted. *)
Theorem found_identifier_is_updated
    {W} (s : service W) (w : W) (record : obj) (counts : nat * nat) (found : jsval) :
  let id := getProp record (lit "id") in
  truthy id = true ->
  fst (select_by_id s id w) = Some found ->
  let now := clock s (snd (select_by_id s id w)) in
  let row := <[lit "updated_at" := JStr (fst now)]> (delete (lit "id") record) in
  trace_of (run s (reconcileRecord record counts) w)
  = [ EvSelectById id (Some found); EvNow (fst now);
      EvUpdate row id (fst (update_by_id s row id (snd now))) ]
  /\ row !! lit "id" = None.
Proof.
  intros id Hid Hfound now row. split.
  - subst now row. unfold reconcileRecord, updateExisting, trace_of. fold id. rewrite Hid.
    cbn [run]. destruct (select_by_id s id w) as [x w1]. cbn [fst snd] in *. subst x.
    cbn [run]. destruct (clock s w1) as [t w2]. cbn [run fst snd].
    destruct (update_by_id s _ id w2) as [e w3]. reflexivity.
  - subst row. rewrite lookup_insert_ne by (vm_compute; discriminate).
    apply lookup_delete_eq.
Qed.

Lemma found_identifier_is_updated_witness :
  let record := object [ (lit "id", JStr (lit "7")); (lit "company_name", JStr (lit "Renamed")) ] in
  trace_of (run store_service (reconcileRecord record (0, 0)) (acme_store true))
  = [ EvSelectById (JStr (lit "7")) (Some (JStr (lit "7")));
      EvNow (lit "2024-05-01T10:00:00.000Z");
      EvUpdate (object [ (lit "company_name", JStr (lit "Renamed"));
                         (lit "updated_at", JStr (lit "2024-05-01T10:00:00.000Z")) ])
               (JStr (lit "7")) None ].
Proof.
  intros record.
  destruct (found_identifier_is_updated store_service (acme_store true) record (0, 0)
              (JStr (lit "7"))) as [H _]; [reflexivity | reflexivity |].
  rewrite H. vm_compute. reflexivity.
Defined.

(** X15: a record without identifier (absent, [null] or empty) is never
    looked up by id: its run starts with the lookup of the company name. *)
Theorem record_without_identifier_skips_id_lookup
    {W} (s : service W) (w : W) (record : obj) (counts : nat * nat) :
  truthy (getProp record (lit "id")) = false ->
  let name := getProp record (lit "company_name") in
  let trace := trace_of (run s (reconcileRecord record counts) w) in
  count isIdLookup trace = 0
  /\ head trace = Some (EvSelectByCompanyName name (fst (select_by_company_name s name w))).
Proof.
  intros Hid name trace. subst trace name.
  unfold reconcileRecord, upsertByCompanyName, updateExisting, trace_of, count.
  rewrite Hid. cbn [run]. answer_calls; cbn [run fst snd List.filter isIdLookup length head];
    split; reflexivity.
Qed.

Lemma record_without_identifier_skips_id_lookup_witness :
  let record := object [ (lit "id", JNull); (lit "company_name", JStr (lit "Bolt")) ] in
  head (trace_of (run store_service (reconcileRecord record (0, 0)) (acme_store true)))
  = Some (EvSelectByCompanyName (JStr (lit "Bolt")) None).
Proof.
  intros record.
  destruct (record_without_identifier_skips_id_lookup store_service (acme_store true)
              record (0, 0)) as [_ H]; [reflexivity|].
  rewrite H. vm_compute. reflexivity.
Defined.

(** ** A whole import, a whole export *)

Lemma handleImport_trace {W} (toLowerCase : jsstring -> jsstring)
    (s : service W) (w : W) (text : jsstring) :
  let user := fst (auth_getUser s w) in
  let w1 := snd (auth_getUser s w) in
  trace_of (run s (handleImport toLowerCase text) w)
  = EvSetIsImporting true :: EvGetUser user ::
    match user with
    | None => [EvToast (importFailed msgNotAuthenticated); EvSetIsImporting false]
    | Some userId =>
        let v := validate toLowerCase userId (csvLines text) in
        if length (csvLines text) <? 2
        then [EvToast (importFailed msgTooFewLines); EvSetIsImporting false]
        else if length (fst v) =? 0
        then [EvToast (importFailed msgNoValidRecords); EvSetIsImporting false]
        else
          let rr := run s (reconcile (fst v) (0, 0)) w1 in
          trace_of rr
          ++ [ EvToast (importSuccessful (fst (result_of rr)) (snd (result_of rr))
                                         (length (snd v)));
               EvOnImportComplete; EvSetIsImporting false ]
    end.
Proof.
  cbv zeta. unfold handleImport, importBody, trace_of, result_of. cbn [run bind].
  destruct (auth_getUser s w) as [[userId|] w1]; cbn [fst snd]; [|reflexivity].
  destruct (length (csvLines text) <? 2); [reflexivity|].
  destruct (validate toLowerCase userId (csvLines text)) as [records errors]. cbn [fst snd].
  destruct (length records =? 0); [reflexivity|].
  rewrite !run_bind.
  destruct (run s (reconcile records (0, 0)) w1) as [[counts w2] t]. cbn [run fst snd].
  rewrite <- app_assoc. reflexivity.
Qed.

Section WholeRun.

Variable toLowerCase : jsstring -> jsstring.

(** X16: with a signed-in user, at least two non-blank lines and at least
    one valid row, an import is: busy flag on, user lookup, the upsert of the
    validated records, one success toast with the tallies of that upsert and
    the number of rejected rows, the completion callback, busy flag off. *)
Theorem successful_import_run
    {W} (s : service W) (w : W) (text userId : jsstring) :
  fst (auth_getUser s w) = Some userId ->
  2 <= length (csvLines text) ->
  fst (validate toLowerCase userId (csvLines text)) <> [] ->
  let v := validate toLowerCase userId (csvLines text) in
  let rr := run s (reconcile (fst v) (0, 0)) (snd (auth_getUser s w)) in
  trace_of (run s (handleImport toLowerCase text) w)
  = [EvSetIsImporting true; EvGetUser (Some userId)]
    ++ trace_of rr
    ++ [ EvToast (importSuccessful (fst (result_of rr)) (snd (result_of rr)) (length (snd v)));
         EvOnImportComplete; EvSetIsImporting false ].
Proof.
  intros Huser Hlines Hrecords v rr. subst rr v.
  rewrite handleImport_trace. cbv zeta. rewrite Huser.
  destruct (Nat.ltb_spec (length (csvLines text)) 2) as [Hlt|_]; [lia|].
  destruct (fst (validate toLowerCase userId (csvLines text))) as [|r records];
    [contradiction | reflexivity].
Qed.

(** X17: every import, whatever the file and the service, turns the busy
    flag on first and off last and shows exactly one toast; between the user
    lookup and the toast there are only calls to the persistence service; a
    failure toast means that none was made, and the completion callback runs
    exactly after a success toast. *)
Theorem import_run_shape {W} (s : service W) (w : W) (text : jsstring) :
  exists user calls t,
    trace_of (run s (handleImport toLowerCase text) w)
    = EvSetIsImporting true :: EvGetUser user :: calls
      ++ EvToast t :: (if destructive t then [] else [EvOnImportComplete])
      ++ [EvSetIsImporting false]
    /\ forallb isServiceCall calls = true
    /\ (destructive t = true -> calls = []).
Proof.
  rewrite handleImport_trace. cbv zeta.
  exists (fst (auth_getUser s w)).
  destruct (fst (auth_getUser s w)) as [userId|].
  - destruct (length (csvLines text) <? 2).
    { exists [], (importFailed msgTooFewLines). repeat split. }
    destruct (length (fst (validate toLowerCase userId (csvLines text))) =? 0).
    { exists [], (importFailed msgNoValidRecords). repeat split. }
    destruct (reconcile_run s (fst (validate toLowerCase userId (csvLines text)))
                (snd (auth_getUser s w)) (0, 0)) as (_ & _ & Hcalls).
    set (rr := run s (reconcile (fst (validate toLowerCase userId (csvLines text))) (0, 0))
                 (snd (auth_getUser s w))) in *.
    exists (trace_of rr),
           (importSuccessful (fst (result_of rr)) (snd (result_of rr))
              (length (snd (validate toLowerCase userId (csvLines text))))).
    split; [reflexivity|]. split; [exact Hcalls|].
    cbn [importSuccessful destructive]. discriminate.
  - exists [], (importFailed msgNotAuthenticated). repeat split.
Qed.

End WholeRun.

Lemma successful_import_run_witness :
  let text := lit "id,company_name" ++ [c_newline] ++ lit "999,Acme"
              ++ [c_newline] ++ lit ",Bolt" ++ [c_newline] in
  count isToast (trace_of (run store_service (handleImport asciiLowerCase text)
                             (acme_store true))) = 1.
Proof.
  intros text.
  rewrite (successful_import_run asciiLowerCase store_service (acme_store true) text
             (lit "alice")).
  - vm_compute. reflexivity.
  - reflexivity.
  - vm_compute. lia.
  - intros H. apply (f_equal (@length obj)) in H. vm_compute in H. discriminate H.
Defined.

(** X18: an export downloads a file only when the query reports no error
    and returns at least one account; the file is then the CSV of exactly the
    accounts returned, named after the date of the clock, and the toast gives
    their number.  In every other case the run is the query and one toast. *)
Theorem export_run {W} (s : service W) (w : W) :
  let answer := select_all s w in
  let r := fst answer in
  let trace := trace_of (run s handleExport w) in
  (forall data, q_error r = None -> q_data r = Some data -> data <> [] ->
     let iso := fst (clock s (snd answer)) in
     trace = [ EvSelectAllAccounts r; EvNow iso;
               EvDownload (exportFileName iso) (csvContent data);
               EvToast (MkToast (lit "Export Successful")
                                (lit "Exported " ++ showNat (length data)
                                 ++ lit " accounts to CSV.") false) ])
  /\ (q_error r <> None \/ q_data r = None \/ q_data r = Some [] ->
      count isDownload trace = 0 /\ count isToast trace = 1 /\ length trace = 2)
  /\ (forall message, q_error r = Some message ->
      trace = [EvSelectAllAccounts r; EvToast (exportFailed message)]).
Proof.
  cbv zeta. unfold handleExport, trace_of, count. cbn [run].
  destruct (select_all s w) as [[data error] w1]. cbn [fst snd q_error q_data].
  split; [|split].
  - intros rows -> -> Hrows. destruct rows as [|a rows]; [contradiction|].
    cbn [run]. destruct (clock s w1) as [iso w2]. reflexivity.
  - intros H. destruct error as [message|]; [repeat split|].
    destruct data as [[|a rows]|]; [repeat split | | repeat split].
    destruct H as [H|[H|H]]; [contradiction | discriminate | discriminate].
  - intros message ->. reflexivity.
Qed.

Lemma export_run_witness :
  count isDownload (trace_of (run store_service handleExport
                                (Store (Some (lit "alice")) [] true (lit "2024-05-01T10:00Z")))) = 0.
Proof.
  destruct (export_run store_service (Store (Some (lit "alice")) [] true (lit "2024-05-01T10:00Z")))
    as (_ & H & _).
  apply H. right. right. reflexivity.
Defined.

(** ** Lines and whitespace *)

Lemma splitLoop_app (sep : N -> bool) (c : N) (a b : jsstring) : forall piece,
  sep c = true ->
  splitLoop sep (a ++ c :: b) piece = splitLoop sep a piece ++ splitLoop sep b [].
Proof.
  induction a as [|x a IH]; intros piece Hc; cbn [app splitLoop].
  - rewrite Hc. reflexivity.
  - destruct (sep x); [rewrite IH by exact Hc; reflexivity | apply IH, Hc].
Qed.

Lemma splits_pieces (sep : N -> bool) (s : jsstring) (pieces : list jsstring) :
  splits sep s pieces ->
  forall p, In p pieces -> forallb (fun c => negb (sep c)) p = true.
Proof.
  induction 1 as [piece Hp | piece c rest pieces Hp Hc _ IH]; intros p [<-|Hin];
    try exact Hp; [destruct Hin | apply IH, Hin].
Qed.

(** X19: the lines the import works on are never blank and hold no line
    break; and the lines of two texts joined by a newline are the lines of the
    first followed by the lines of the second, so that blank lines and a
    newline at the end of the file change nothing. *)
Theorem csvLines_of_joined_texts (a b : jsstring) :
  csvLines (a ++ c_newline :: b) = csvLines a ++ csvLines b
  /\ csvLines (a ++ [c_newline]) = csvLines a
  /\ (forall line, In line (csvLines a) -> nonBlank line = true /\ ~ In c_newline line).
Proof.
  assert (Happ : forall x y, csvLines (x ++ c_newline :: y) = csvLines x ++ csvLines y).
  { intros x y. unfold csvLines, split. rewrite splitLoop_app by reflexivity.
    apply List.filter_app. }
  split; [apply Happ|]. split.
  - rewrite Happ. change (csvLines []) with (@nil jsstring). apply app_nil_r.
  - intros line Hin. unfold csvLines in Hin. apply filter_In in Hin as [Hin Hnb].
    split; [exact Hnb|]. intros Hnl.
    pose proof (splits_pieces _ _ _ (split_splits (N.eqb c_newline) a) line Hin) as Hp.
    rewrite forallb_forall in Hp. specialize (Hp c_newline Hnl). discriminate Hp.
Qed.

Lemma csvLines_of_joined_texts_witness :
  nonBlank (lit "Acme,a@acme.io") = true.
Proof.
  destruct (csvLines_of_joined_texts (lit "name,email" ++ [c_newline; c_newline]
                                        ++ lit "Acme,a@acme.io") []) as (_ & _ & H).
  apply (H (lit "Acme,a@acme.io")). vm_compute. right. left. reflexivity.
Defined.

Lemma whitespace_is_plain (c : N) :
  isWhiteSpace c = true -> (c =? c_quote)%N = false /\ (c =? c_comma)%N = false.
Proof.
  intros H. split.
  - destruct (N.eqb_spec c c_quote) as [->|_]; [discriminate H | reflexivity].
  - destruct (N.eqb_spec c c_comma) as [->|_]; [discriminate H | reflexivity].
Qed.

Lemma trimStart_app (s t : jsstring) :
  trimStart (s ++ t) = match trimStart s with [] => trimStart t | _ :: _ => trimStart s ++ t end.
Proof.
  induction s as [|x s IH]; cbn [app trimStart]; [reflexivity|].
  destruct (isWhiteSpace x); [exact IH | reflexivity].
Qed.

Lemma trim_cons_white (c : N) (s : jsstring) : isWhiteSpace c = true -> trim (c :: s) = trim s.
Proof. intros H. unfold trim. cbn [trimStart]. rewrite H. reflexivity. Qed.

Lemma trimEnd_snoc_white (c : N) (s : jsstring) :
  isWhiteSpace c = true -> trimEnd (s ++ [c]) = trimEnd s.
Proof.
  intros H. unfold trimEnd. rewrite rev_app_distr. cbn [rev app trimStart]. rewrite H.
  reflexivity.
Qed.

Lemma trim_snoc_white (c : N) (s : jsstring) :
  isWhiteSpace c = true -> trim (s ++ [c]) = trim s.
Proof.
  intros H. unfold trim. rewrite trimStart_app. cbn [trimStart]. rewrite H.
  destruct (trimStart s) as [|x r]; [reflexivity|].
  apply trimEnd_snoc_white. exact H.
Qed.

Lemma parseLoop_leading_white (c : N) (chars : jsstring) : forall result current inQuotes,
  isWhiteSpace c = true ->
  parseLoop chars result (c :: current) inQuotes = parseLoop chars result current inQuotes.
Proof.
  induction chars as [|x chars IH]; intros result current q Hc; cbn [parseLoop].
  - rewrite trim_cons_white by exact Hc. reflexivity.
  - destruct (x =? c_quote)%N; [apply IH, Hc|].
    destruct ((x =? c_comma)%N && negb q).
    + rewrite trim_cons_white by exact Hc. reflexivity.
    + rewrite <- app_comm_cons. apply IH, Hc.
Qed.

Lemma parseLoop_trailing_white (c : N) (chars : jsstring) : forall result current inQuotes,
  isWhiteSpace c = true ->
  parseLoop (chars ++ [c]) result current inQuotes = parseLoop chars result current inQuotes.
Proof.
  induction chars as [|x chars IH]; intros result current q Hc; cbn [app parseLoop].
  - destruct (whitespace_is_plain c Hc) as [-> ->]. cbn [andb parseLoop].
    rewrite trim_snoc_white by exact Hc. reflexivity.
  - destruct (x =? c_quote)%N; [apply IH, Hc|].
    destruct ((x =? c_comma)%N && negb q); apply IH, Hc.
Qed.

Lemma parseLoop_leading_whites (ws : jsstring) : forall chars result current inQuotes,
  forallb isWhiteSpace ws = true ->
  parseLoop chars result (ws ++ current) inQuotes = parseLoop chars result current inQuotes.
Proof.
  induction ws as [|c ws IH]; intros chars result current q Hws; [reflexivity|].
  cbn [forallb] in Hws. apply andb_prop in Hws as [Hc Hws].
  cbn [app]. rewrite parseLoop_leading_white by exact Hc. apply IH, Hws.
Qed.

Lemma parseLoop_skip_whites (before : jsstring) : forall chars ws,
  forallb isWhiteSpace before = true ->
  forallb isWhiteSpace ws = true ->
  parseLoop (before ++ chars) [] ws false = parseLoop chars [] [] false.
Proof.
  induction before as [|c before IH]; intros chars ws Hb Hws.
  - cbn [app]. rewrite <- (app_nil_r ws). apply parseLoop_leading_whites, Hws.
  - cbn [forallb] in Hb. apply andb_prop in Hb as [Hc Hb].
    cbn [app parseLoop]. destruct (whitespace_is_plain c Hc) as [-> ->]. cbn [andb].
    apply IH; [exact Hb|]. rewrite forallb_app, Hws. cbn [forallb]. rewrite Hc. reflexivity.
Qed.

Lemma parseLoop_trailing_whites (after : jsstring) : forall chars result current inQuotes,
  forallb isWhiteSpace after = true ->
  parseLoop (chars ++ after) result current inQuotes
  = parseLoop chars result current inQuotes.
Proof.
  induction after as [|c after IH] using rev_ind; intros chars result current q Ha.
  - rewrite app_nil_r. reflexivity.
  - rewrite forallb_app in Ha. apply andb_prop in Ha as [Ha Hc].
    cbn [forallb] in Hc. rewrite andb_true_r in Hc.
    rewrite app_assoc, parseLoop_trailing_white by exact Hc. apply IH, Ha.
Qed.

(** X20: whitespace before and after a line does not change its fields; in
    particular the carriage return that a Windows line ending leaves at the
    end of each line is harmless. *)
Theorem parseCSVLine_ignores_outer_whitespace (before line after : jsstring) :
  forallb isWhiteSpace before = true ->
  forallb isWhiteSpace after = true ->
  parseCSVLine (before ++ line ++ after) = parseCSVLine line.
Proof.
  intros Hb Ha. unfold parseCSVLine.
  rewrite parseLoop_skip_whites by (exact Hb || reflexivity).
  apply parseLoop_trailing_whites. exact Ha.
Qed.

Lemma parseCSVLine_ignores_outer_whitespace_witness :
  parseCSVLine (lit "Acme,a@acme.io" ++ [13%N]) = parseCSVLine (lit "Acme,a@acme.io").
Proof.
  apply (parseCSVLine_ignores_outer_whitespace [] (lit "Acme,a@acme.io") [13%N]);
    reflexivity.
Defined.

(** ** An export imported again *)

Lemma recordOf_index headers userId i j line :
  recordOf (processRow headers userId i line) = recordOf (processRow headers userId j line).
Proof.
  unfold processRow.
  destruct (negb (truthy (companyNameOf (buildRecord headers (parseCSVLine line)))));
    reflexivity.
Qed.

Lemma rowsLoop_all_valid headers userId rows : forall i,
  (forall row, In row rows -> exists r, processRow headers userId 0 row = inr r) ->
  rowsLoop headers userId i rows [] []
  = (List.map (fun row => recordOf (processRow headers userId 0 row)) rows, []).
Proof.
  induction rows as [|row rest IH]; intros i Hvalid; cbn [rowsLoop List.map]; [reflexivity|].
  destruct (Hvalid row (or_introl eq_refl)) as [r0 E0].
  pose proof (processRow_index headers userId i 0 row) as Hidx.
  pose proof (recordOf_index headers userId i 0 row) as Hrec.
  rewrite E0 in Hidx. destruct (processRow headers userId i row) as [e|r]; [destruct Hidx|].
  cbn [recordOf] in Hrec. rewrite rowsLoop_acc, IH.
  - cbn [fst snd app]. rewrite Hrec. reflexivity.
  - intros row' Hin. apply Hvalid. right. exact Hin.
Qed.

Lemma headersOf_export (toLowerCase : jsstring -> jsstring) (rows : list jsstring) :
  (forall header, In header exportHeaders -> toLowerCase header = header) ->
  headersOf toLowerCase (headerRow :: rows) = exportHeaders.
Proof.
  intros Hlower. unfold headersOf. cbn [nth].
  change (parseCSVLine headerRow) with (parseCSVLine (join [c_comma] exportHeaders)).
  assert (Hparse : parseCSVLine (join [c_comma] exportHeaders) = exportHeaders)
    by (vm_compute; reflexivity).
  rewrite Hparse. rewrite <- (List.map_id exportHeaders) at 2.
  apply List.map_ext_in. intros header Hin. unfold normalizeHeader.
  rewrite (Hlower header Hin).
  assert (H : forallb (fun h => bool_decide (replaceNonKey h = h)) exportHeaders = true)
    by (vm_compute; reflexivity).
  rewrite forallb_forall in H. specialize (H header Hin).
  apply bool_decide_eq_true in H. exact H.
Qed.

Section Reimport.

Variable toLowerCase : jsstring -> jsstring.

(** X21: an exported file imported again validates completely: when the
    lower-casing leaves the export's column names alone, no exported field
    holds a newline, and every account has an id and a company name without
    double quote or outer whitespace, validation yields one record per
    account, in order, with the account's id and company name, and no error. *)
Theorem reimport_of_export_validates (userId : jsstring) (data : list obj) :
  (forall header, In header exportHeaders -> toLowerCase header = header) ->
  (forall account header, In account data -> In header exportHeaders ->
     ~ In c_newline (fieldText account header)) ->
  (forall account, In account data ->
     exists id name, getProp account (lit "id") = JStr id /\ cleanText id
                     /\ getProp account (lit "company_name") = JStr name /\ cleanText name) ->
  let v := validate toLowerCase userId (csvLines (csvContent data)) in
  length (fst v) = length data
  /\ snd v = []
  /\ forall k account, data !! k = Some account ->
       exists r, fst v !! k = Some r
                 /\ getProp r (lit "id") = getProp account (lit "id")
                 /\ getProp r (lit "company_name") = getProp account (lit "company_name").
Proof.
  intros Hlower Hnl Hclean v.
  assert (Hv : v = (List.map (fun row => recordOf (processRow exportHeaders userId 0 row))
                             (List.map exportRow data), [])).
  { subst v. rewrite exported_file_lines_aux by exact Hnl.
    unfold validate. rewrite headersOf_export by exact Hlower. cbn [tl].
    apply rowsLoop_all_valid. intros row Hrow.
    apply in_map_iff in Hrow as (account & <- & Haccount).
    destruct (Hclean account Haccount) as (id & name & Hid & Hcid & Hname & Hcname).
    eexists. apply (exported_row_identity account userId id name 0 Hid Hname Hcid Hcname). }
  rewrite Hv. cbn [fst snd]. split; [rewrite !length_map; reflexivity|].
  split; [reflexivity|].
  intros k account Hk. rewrite List.map_map, lookup_map, Hk. cbn [option_map].
  eexists. split; [reflexivity|].
  destruct (Hclean account) as (id & name & Hid & Hcid & Hname & Hcname).
  { apply list_elem_of_In. apply list_elem_of_lookup. exists k. exact Hk. }
  destruct (exported_row_identity account userId id name 0 Hid Hname Hcid Hcname)
    as (_ & Hrid & Hrname & _).
  cbv zeta in Hrid, Hrname. rewrite Hrid, Hrname, Hid, Hname. split; reflexivity.
Qed.

End Reimport.

Lemma reimport_of_export_validates_witness :
  length (fst (validate asciiLowerCase (lit "alice") (csvLines (csvContent [acme])))) = 1
  /\ snd (validate asciiLowerCase (lit "alice") (csvLines (csvContent [acme]))) = [].
Proof.
  destruct (reimport_of_export_validates asciiLowerCase (lit "alice") [acme]) as (H1 & H2 & _).
  - intros header Hin.
    assert (H : forallb (fun h => bool_decide (asciiLowerCase h = h)) exportHeaders = true)
      by (vm_compute; reflexivity).
    rewrite forallb_forall in H. specialize (H header Hin).
    apply bool_decide_eq_true in H. exact H.
  - intros account header [<-|[]] Hheader Hin.
    apply includesChar_In in Hin. revert Hin.
    assert (H : forallb (fun h => negb (includesChar c_newline (fieldText acme h)))
                  exportHeaders = true) by (vm_compute; reflexivity).
    rewrite forallb_forall in H. specialize (H header Hheader).
    destruct (includesChar c_newline (fieldText acme header)); [discriminate H | discriminate].
  - intros account [<-|[]]. exists (lit "7"), (lit "Acme").
    repeat split; try reflexivity; discriminate.
  - split; [exact H1 | exact H2].
Defined.

(** ** Columns of the row *)

(** X22: the company name of a validated record is the first non-empty of
    the [company_name], [name] and [company] cells of the row, in that order,
    and the account owner is the row's [account_owner] cell when it is not
    empty and the acting user otherwise. *)
Theorem natural_key_priority
    (headers : list jsstring) (userId : jsstring) (i : nat) (line : jsstring) (r : obj) :
  processRow headers userId i line = inr r ->
  let record := buildRecord headers (parseCSVLine line) in
  let first := getProp record (lit "company_name") in
  let second := getProp record (lit "name") in
  let third := getProp record (lit "company") in
  getProp r (lit "company_name")
  = (if truthy first then first else if truthy second then second else third)
  /\ (truthy first = false -> truthy second = false -> truthy third = true)
  /\ getProp r (lit "account_owner")
     = (if truthy (getProp record (lit "account_owner"))
        then getProp record (lit "account_owner") else JStr userId).
Proof.
  intros H record first second third.
  destruct (processRow_record _ _ _ _ _ H) as (_ & _ & Howner & _ & Hname & _).
  destruct (processRow_fields _ _ _ _ _ H) as (Hcompany & _).
  subst first second third. fold record in Hname, Hcompany, Howner.
  unfold companyNameOf, jsOr in Hname, Hcompany.
  split; [|split].
  - rewrite Hname.
    destruct (truthy (getProp record (lit "company_name"))) eqn:E1; [rewrite E1; reflexivity|].
    cbv iota. destruct (truthy (getProp record (lit "name"))) eqn:E2; reflexivity.
  - intros H1 H2. rewrite H1 in Hcompany. cbv iota in Hcompany.
    rewrite H2 in Hcompany. exact Hcompany.
  - exact Howner.
Qed.

Lemma natural_key_priority_witness :
  getProp (recordOf (processRow [lit "company"; lit "name"; lit "company_name"] (lit "alice") 1
                       (lit "Third,Second,")))
          (lit "company_name") = JStr (lit "Second").
Proof.
  destruct (natural_key_priority [lit "company"; lit "name"; lit "company_name"] (lit "alice") 1
              (lit "Third,Second,")
              (recordOf (processRow [lit "company"; lit "name"; lit "company_name"]
                           (lit "alice") 1 (lit "Third,Second,")))) as (H & _).
  - apply processRow_valid. vm_compute. reflexivity.
  - rewrite H. vm_compute. reflexivity.
Defined.

(** X23: under a header (other than the reserved [__proto__]) the row object
    holds the cell of the last column with that header: that cell when it is
    not empty, [null] when it is empty or the row is too short; and the row
    object has no own property under a key that is no header of the file. *)
Theorem last_column_wins
    (headers values : list jsstring) (idx : nat) (header : jsstring) :
  headers !! idx = Some header ->
  (forall later, idx < later -> headers !! later <> Some header) ->
  header <> lit "__proto__" ->
  getProp (buildRecord headers values) header
  = match values !! idx with
    | Some (c :: cell) => JStr (c :: cell)
    | Some [] | None => JNull
    end
  /\ forall key, ~ In key headers -> buildRecord headers values !! key = None.
Proof.
  intros Hidx Hlast Hproto. split.
  - unfold getProp, buildRecord, buildRow.
    rewrite (assignLoop_last_wins headers header Hproto idx 0 values emptyRow Hidx Hlast).
    cbn [Nat.add default]. unfold at_index, jsOr.
    destruct (values !! idx) as [[|c cell]|]; reflexivity.
  - intros key Hkey. apply no_property_without_header. exact Hkey.
Qed.

Lemma last_column_wins_witness :
  getProp (buildRecord [lit "name"; lit "email"; lit "name"] [lit "First"; lit "a@x.io"; lit "Last"])
          (lit "name") = JStr (lit "Last").
Proof.
  destruct (last_column_wins [lit "name"; lit "email"; lit "name"]
              [lit "First"; lit "a@x.io"; lit "Last"] 2 (lit "name")) as [H _].
  - reflexivity.
  - intros later Hlt. rewrite lookup_ge_None_2 by (cbn [length]; lia). discriminate.
  - discriminate.
  - rewrite H. reflexivity.
Defined.
